(** * Ingestion orchestration of azure-kusto-go: queued and streaming paths

    A shallow embedding of [kusto/ingest/ingest.go] (type [Ingestion]) and of
    the streaming orchestrator (type [StreamingIngestion]).  Go functions
    returning a pointer and an error are embedded as functions returning a
    pair of options, so that "nil result" and "nil error" stay separate
    observations.
    Calls on collaborators (resource manager, staging, connection, options)
    are recorded in a trace carried by the state. *)

From Stdlib Require Import String List ZArith Lia Bool Arith.
Import ListNotations.
Local Open Scope string_scope.
Local Open Scope list_scope.

(** ** Errors *)

(** Modelled from the spec: the package [kusto/data/errors] is another
    package of the repository and is not embedded here.  Section 7 names the
    kinds of error and says that a transport error is "wrapped with an
    operation tag"; [Op] and [Kind] list the tags the two files use. *)
Inductive Op : Type := OpFileIngest | OpIngestStream.

Inductive Kind : Type := KClientArgs.

(** Modelled from the spec: a Go [error] value.  [fmt_Errorf] is
    [fmt.Errorf] on a constant message,
    [errors_ES] is [errors.ES(op, kind, msg)], [errors_E] is
    [errors.E(op, kind, err)] (a new error carrying [err] as its cause),
    [collaborator_error] is any error a collaborator hands back, and
    [runtime_panic] stands for the run-time panic of a nil pointer
    dereference, which is no return at all (the places that would raise it
    are shown unreachable below). *)
Inductive error : Type :=
| fmt_Errorf (msg : string)
| errors_ES (o : Op) (k : Kind) (msg : string)
| errors_E (o : Op) (k : Kind) (err : error)
| collaborator_error (who : string) (code : Z)
| runtime_panic (msg : string).

(** The error a wrapped error was built from. *)
Definition cause (e : error) : error :=
  match e with
  | errors_E _ _ err => err
  | _ => e
  end.

(** ** UUIDs (github.com/google/uuid) *)

Module uuid.

(** [UUID] is an array of sixteen bytes; it is kept as the 128-bit number
    the bytes spell most significant byte first, so byte [i] sits at bits
    [8*(15-i) .. 8*(15-i)+7]. *)
Definition UUID : Type := Z.

Local Open Scope Z_scope.

Definition Nil : UUID := 0.

Definition byte_shift (i : Z) : Z := 8 * (15 - i).

(** [uuid[i] = (uuid[i] & keep) | set] *)
Definition set_byte (u : UUID) (i keep set : Z) : UUID :=
  Z.lor (Z.land u (Z.lnot (Z.shiftl (Z.lxor 255 keep) (byte_shift i))))
        (Z.shiftl set (byte_shift i)).

(** [New] on sixteen random bytes [r]: version 4, variant 10. *)
Definition New (r : Z) : UUID :=
  let u := r mod 2 ^ 128 in
  let u := set_byte u 6 15 64 in
  set_byte u 8 63 128.

Definition eqb (a b : UUID) : bool := Z.eqb a b.

Definition hex_digit (d : Z) : string :=
  match d with
  | 0 => "0" | 1 => "1" | 2 => "2" | 3 => "3" | 4 => "4" | 5 => "5"
  | 6 => "6" | 7 => "7" | 8 => "8" | 9 => "9" | 10 => "a" | 11 => "b"
  | 12 => "c" | 13 => "d" | 14 => "e" | _ => "f"
  end.

(** The [n] low hexadecimal digits of [v], most significant first. *)
Fixpoint hex (n : nat) (v : Z) : string :=
  match n with
  | O => ""
  | S n' => (hex n' (v / 16) ++ hex_digit (v mod 16))%string
  end.

(** [UUID.String]: xxxxxxxx-xxxx-xxxx-xxxx-xxxxxxxxxxxx *)
Definition String (u : UUID) : string :=
  (hex 8 (Z.shiftr u 96) ++ "-" ++ hex 4 (Z.shiftr u 80) ++ "-" ++
   hex 4 (Z.shiftr u 64) ++ "-" ++ hex 4 (Z.shiftr u 48) ++ "-" ++
   hex 12 u)%string.

End uuid.

(** ** Property sets (package [properties]) *)

Module properties.

(** Modelled from the spec: the package [kusto/ingest/internal/properties] is
    another package of the repository.  The records follow section 3 of the spec
    and the field names the two files use; the enumerations list the constants
    the files name ([None], [ReportStatusToTable],
    [ReportStatusToQueueAndTable], [CTUnknown], [CTNone]), the formats the
    comment of [Stream] lists, and the gzip and zip schemes of compression
    discovery.  The first constructor of each enumeration is its Go zero
    value. *)
Inductive StatusReportLevel : Type := FailuresOnly | None | FailureAndSuccess.

Inductive IngestionReportMethod : Type :=
  ReportStatusToQueue | ReportStatusToTable | ReportStatusToQueueAndTable.

Inductive DataFormat : Type :=
  DFUnknown | AVRO | CSV | JSON | PSV | SCSV | SOHSV | TSV.

Inductive CompressionType : Type := CTUnknown | CTNone | GZIP | ZIP.

Record StatusTableDescription : Type := {
  TableConnectionString : string;
  PartitionKey : string;
  RowKey : string
}.

Record Additional : Type := {
  Format : DataFormat;
  IngestionMappingRef : string;
  AuthContext : string
}.

Record Ingestion : Type := {
  DatabaseName : string;
  TableName : string;
  RetainBlobOnSuccess : bool;
  ReportLevel : StatusReportLevel;
  ReportMethod : IngestionReportMethod;
  TableEntryRef : StatusTableDescription;
  Additional_ : Additional
}.

Record Streaming : Type := {
  ShouldCompress : bool;
  ClientRequestId : string
}.

Record SourceOptions : Type := {
  ID : uuid.UUID
}.

Record All : Type := {
  Ingestion_ : Ingestion;
  Streaming_ : Streaming;
  Source : SourceOptions
}.

(** Go zero values. *)
Definition zero_TableEntryRef : StatusTableDescription :=
  {| TableConnectionString := ""; PartitionKey := ""; RowKey := "" |}.

Definition zero_Additional : Additional :=
  {| Format := DFUnknown; IngestionMappingRef := ""; AuthContext := "" |}.

Definition zero_Ingestion : Ingestion :=
  {| DatabaseName := ""; TableName := ""; RetainBlobOnSuccess := false;
     ReportLevel := FailuresOnly; ReportMethod := ReportStatusToQueue;
     TableEntryRef := zero_TableEntryRef; Additional_ := zero_Additional |}.

Definition zero_Streaming : Streaming :=
  {| ShouldCompress := false; ClientRequestId := "" |}.

Definition zero_Source : SourceOptions := {| ID := uuid.Nil |}.

Definition zero_All : All :=
  {| Ingestion_ := zero_Ingestion; Streaming_ := zero_Streaming;
     Source := zero_Source |}.

(** Field assignments, as Go's [p.A.B = v]. *)
Definition set_ID (p : All) (u : uuid.UUID) : All :=
  {| Ingestion_ := Ingestion_ p; Streaming_ := Streaming_ p;
     Source := {| ID := u |} |}.

Definition set_ShouldCompress (p : All) (b : bool) : All :=
  {| Ingestion_ := Ingestion_ p;
     Streaming_ := {| ShouldCompress := b;
                      ClientRequestId := ClientRequestId (Streaming_ p) |};
     Source := Source p |}.

Definition set_TableEntryRef (p : All) (t : StatusTableDescription) : All :=
  {| Ingestion_ :=
       {| DatabaseName := DatabaseName (Ingestion_ p);
          TableName := TableName (Ingestion_ p);
          RetainBlobOnSuccess := RetainBlobOnSuccess (Ingestion_ p);
          ReportLevel := ReportLevel (Ingestion_ p);
          ReportMethod := ReportMethod (Ingestion_ p);
          TableEntryRef := t;
          Additional_ := Additional_ (Ingestion_ p) |};
     Streaming_ := Streaming_ p;
     Source := Source p |}.

Definition set_TableConnectionString (p : All) (v : string) : All :=
  set_TableEntryRef p
    {| TableConnectionString := v;
       PartitionKey := PartitionKey (TableEntryRef (Ingestion_ p));
       RowKey := RowKey (TableEntryRef (Ingestion_ p)) |}.

Definition set_PartitionKey (p : All) (v : string) : All :=
  set_TableEntryRef p
    {| TableConnectionString :=
         TableConnectionString (TableEntryRef (Ingestion_ p));
       PartitionKey := v;
       RowKey := RowKey (TableEntryRef (Ingestion_ p)) |}.

Definition set_RowKey (p : All) (v : string) : All :=
  set_TableEntryRef p
    {| TableConnectionString :=
         TableConnectionString (TableEntryRef (Ingestion_ p));
       PartitionKey := PartitionKey (TableEntryRef (Ingestion_ p));
       RowKey := v |}.

Definition level_is_None (l : StatusReportLevel) : bool :=
  match l with None => true | _ => false end.

Definition format_is_DFUnknown (f : DataFormat) : bool :=
  match f with DFUnknown => true | _ => false end.

End properties.

(** ** Values the orchestrators hold and pass around

    The types of the packages [kusto], [resources], [conn] and [filesystem]
    are kept to what the two files do with them: pointers are told apart by
    the identity of their allocation, and what their methods answer is read
    from the environment [Env] below. *)

(** [*kusto.Client]: a backend client, told apart by identity. *)
Record Client : Type := {
  client_id : nat;
  Endpoint : string;
  Auth : string
}.

(** [*resources.Manager]: [manager_id] is the identity of the allocation. *)
Record Manager : Type := {
  manager_id : nat;
  manager_client : Client
}.

(** [*conn.Conn]: [conn_id] is the identity of the allocation. *)
Record Conn : Type := {
  conn_id : nat;
  conn_endpoint : string;
  conn_auth : string
}.

(** A resource endpoint; [URL_String] is [URL().String()]. *)
Record URI : Type := { URL_String : string }.

(** What [Manager.Resources] hands back. *)
Record Resources : Type := {
  Queues : list URI;
  Containers : list URI;
  Tables : list URI
}.

(** [*filesystem.Ingestion], the staging collaborator built by [New]. *)
Record Filesystem : Type := {
  fs_db : string;
  fs_table : string;
  fs_mgr : Manager
}.

Record Context : Type := { ctx_id : nat }.

(** An [io.Reader] value: the bytes it yields and the dynamic type the
    type assertion of [streamImpl] looks at. *)
Inductive Reader : Type :=
| bytes_NewReader (b : list Byte.byte)
| os_File (path : string) (content : list Byte.byte)
| caller_Reader (content : list Byte.byte) (closable : bool)
| ioutil_NopCloser (r : Reader)
| gzip_Reset (closer : Reader).

(** [payload.(io.ReadCloser)] succeeds. *)
Definition is_ReadCloser (r : Reader) : bool :=
  match r with
  | bytes_NewReader _ => false
  | os_File _ _ => true
  | caller_Reader _ closable => closable
  | ioutil_NopCloser _ => true
  | gzip_Reset _ => true
  end.

(** The bytes under the wrappers, and whether a gzip encoder is among them. *)
Fixpoint source_bytes (r : Reader) : list Byte.byte :=
  match r with
  | bytes_NewReader b => b
  | os_File _ content => content
  | caller_Reader content _ => content
  | ioutil_NopCloser r' => source_bytes r'
  | gzip_Reset closer => source_bytes closer
  end.

Fixpoint compressed (r : Reader) : bool :=
  match r with
  | gzip_Reset _ => true
  | ioutil_NopCloser r' => compressed r'
  | _ => false
  end.

(** [FileOption], an interface with the method [Run] as the two files call
    it: [Run] takes the property set and the five mode flags (isFile, isBlob,
    isReader, queued, streaming); it hands back the property set as it
    leaves it and its error. *)
Record FileOption : Type := {
  Run : properties.All -> bool -> bool -> bool -> bool -> bool ->
        properties.All * option error
}.

(** Modelled from the spec: [Result], [newResult], [putProps] and [putQueued]
    are declared in another file of the package.  Section 3: a Result is a
    properties snapshot and a record (IngestionSourcePath, Status,
    CorrelationID); section 4.2: on staging success the Result is marked
    queued with polling hints. *)
Record statusRecord : Type := {
  IngestionSourcePath : string;
  Status : string;
  CorrelationID : uuid.UUID
}.

Record Result : Type := {
  props_snapshot : properties.All;
  record : statusRecord;
  queued_with : option Manager
}.

Definition newResult : Result :=
  {| props_snapshot := properties.zero_All;
     record := {| IngestionSourcePath := ""; Status := "";
                  CorrelationID := uuid.Nil |};
     queued_with := None |}.

Definition putProps (r : Result) (props : properties.All) : Result :=
  {| props_snapshot := props; record := record r;
     queued_with := queued_with r |}.

Definition putQueued (r : Result) (mgr : Manager) : Result :=
  {| props_snapshot := props_snapshot r; record := record r;
     queued_with := Some mgr |}.

(** [result.record.IngestionSourcePath = v] and [result.record.Status = v] *)
Definition set_IngestionSourcePath (r : Result) (v : string) : Result :=
  {| props_snapshot := props_snapshot r;
     record := {| IngestionSourcePath := v; Status := Status (record r);
                  CorrelationID := CorrelationID (record r) |};
     queued_with := queued_with r |}.

Definition set_Status (r : Result) (v : string) : Result :=
  {| props_snapshot := props_snapshot r;
     record := {| IngestionSourcePath := IngestionSourcePath (record r);
                  Status := v;
                  CorrelationID := CorrelationID (record r) |};
     queued_with := queued_with r |}.

(** ** Collaborators and the state they are called in *)

Inductive Mutex : Type := managerMu | connMu.

(** One entry per call that leaves the two files. *)
Inductive Event : Type :=
| EvLock (mu : Mutex)
| EvUnlock (mu : Mutex)
| EvResourcesNew (c : Client)
| EvFilesystemNew (db table : string) (m : Manager)
| EvAuthContext (m : Manager)
| EvResources (m : Manager)
| EvRun (n : nat) (isFile isBlob isReader queued streaming : bool)
| EvUuidNew
| EvIsLocalPath (fPath : string)
| EvLocal (fPath : string) (props : properties.All)
| EvBlob (fPath : string) (offset : Z) (props : properties.All)
| EvReader (r : Reader) (props : properties.All)
| EvCompressionDiscovery (fPath : string)
| EvOpen (fPath : string)
| EvConnNew (endpoint auth : string)
| EvWrite (c : Conn) (db table : string) (payload : Reader)
          (format : properties.DataFormat) (mappingRef requestID : string).

(** What the collaborators answer.  An [option error] is Go's [error], with
    [None] for nil.  The three constructors ([resources.New],
    [filesystem.New], [conn.New]) and [os.Open] give a pointer or an error:
    the environment says which, and the state numbers the allocations. *)
Record Env : Type := {
  resources_New_err : Client -> option error;
  filesystem_New_err : string -> string -> Manager -> option error;
  mgr_AuthContext : Manager -> Context -> string * option error;
  mgr_Resources : Manager -> Resources * option error;
  filesystem_IsLocalPath : string -> bool * option error;
  fs_Local : Filesystem -> Context -> string -> properties.All -> option error;
  fs_Blob : Filesystem -> Context -> string -> Z -> properties.All ->
            option error;
  fs_Reader : Filesystem -> Context -> Reader -> properties.All ->
              string * option error;
  filesystem_CompressionDiscovery : string -> properties.CompressionType;
  os_Open : string -> error + list Byte.byte;
  conn_New_err : string -> string -> option error;
  conn_Write : Conn -> Context -> string -> string -> Reader ->
               properties.DataFormat -> string -> string -> option error;
  rand_Read : nat -> Z
}.

(** The package-level [manager] variable, the allocation counters and the
    trace, oldest call first. *)
Record State : Type := {
  manager : option Manager;
  managers_made : nat;
  conns_made : nat;
  uuids_made : nat;
  trace : list Event
}.

Definition init_State : State :=
  {| manager := None; managers_made := 0; conns_made := 0; uuids_made := 0;
     trace := [] |}.

(** State passing, with the usual notation. *)
Definition M (A : Type) : Type := State -> A * State.

Definition ret {A : Type} (a : A) : M A := fun s => (a, s).

Definition bind {A B : Type} (c : M A) (k : A -> M B) : M B :=
  fun s => let (a, s') := c s in k a s'.

Declare Scope go_scope.
Delimit Scope go_scope with go.
Notation "x <- c ;; k" := (bind c (fun x => k))
  (at level 61, c at next level, right associativity) : go_scope.
Notation "c ;; k" := (bind c (fun _ => k))
  (at level 61, right associativity) : go_scope.
Local Open Scope go_scope.

Definition log (e : Event) : M unit :=
  fun s => (tt, {| manager := manager s; managers_made := managers_made s;
                   conns_made := conns_made s; uuids_made := uuids_made s;
                   trace := trace s ++ [e] |}).

Definition set_manager (m : option Manager) : M unit :=
  fun s => (tt, {| manager := m; managers_made := managers_made s;
                   conns_made := conns_made s; uuids_made := uuids_made s;
                   trace := trace s |}).

Definition fresh_manager : M nat :=
  fun s => (managers_made s,
            {| manager := manager s; managers_made := S (managers_made s);
               conns_made := conns_made s; uuids_made := uuids_made s;
               trace := trace s |}).

Definition fresh_conn : M nat :=
  fun s => (conns_made s,
            {| manager := manager s; managers_made := managers_made s;
               conns_made := S (conns_made s); uuids_made := uuids_made s;
               trace := trace s |}).

Definition fresh_uuid : M nat :=
  fun s => (uuids_made s,
            {| manager := manager s; managers_made := managers_made s;
               conns_made := conns_made s; uuids_made := S (uuids_made s);
               trace := trace s |}).

Definition nil_dereference : error :=
  runtime_panic "invalid memory address or nil pointer dereference".

Section Ingest.

Variable env : Env.

(** *** Calls on collaborators *)

Definition Lock (mu : Mutex) : M unit := log (EvLock mu).

Definition Unlock (mu : Mutex) : M unit := log (EvUnlock mu).

(** [manager.Load()] and [manager.Store(mgr)] on the atomic value. *)
Definition manager_Load : M (option Manager) := fun s => (manager s, s).

Definition manager_Store (mgr : Manager) : M unit := set_manager (Some mgr).

Definition resources_New (client : Client) : M (error + Manager) :=
  log (EvResourcesNew client) ;;
  match resources_New_err env client with
  | Some err => ret (inl err)
  | None =>
      n <- fresh_manager ;;
      ret (inr {| manager_id := n; manager_client := client |})
  end.

Definition filesystem_New (db table : string) (mgr : Manager)
  : M (error + Filesystem) :=
  log (EvFilesystemNew db table mgr) ;;
  match filesystem_New_err env db table mgr with
  | Some err => ret (inl err)
  | None => ret (inr {| fs_db := db; fs_table := table; fs_mgr := mgr |})
  end.

Definition conn_New (endpoint auth : string) : M (error + Conn) :=
  log (EvConnNew endpoint auth) ;;
  match conn_New_err env endpoint auth with
  | Some err => ret (inl err)
  | None =>
      n <- fresh_conn ;;
      ret (inr {| conn_id := n; conn_endpoint := endpoint;
                  conn_auth := auth |})
  end.

Definition uuid_New : M uuid.UUID :=
  log EvUuidNew ;;
  n <- fresh_uuid ;;
  ret (uuid.New (rand_Read env n)).

Definition AuthContext (mgr : Manager) (ctx : Context)
  : M (string * option error) :=
  log (EvAuthContext mgr) ;; ret (mgr_AuthContext env mgr ctx).

Definition Resources_ (mgr : Manager) : M (Resources * option error) :=
  log (EvResources mgr) ;; ret (mgr_Resources env mgr).

Definition IsLocalPath (fPath : string) : M (bool * option error) :=
  log (EvIsLocalPath fPath) ;; ret (filesystem_IsLocalPath env fPath).

Definition Local (fs : Filesystem) (ctx : Context) (fPath : string)
  (props : properties.All) : M (option error) :=
  log (EvLocal fPath props) ;; ret (fs_Local env fs ctx fPath props).

Definition Blob (fs : Filesystem) (ctx : Context) (fPath : string)
  (offset : Z) (props : properties.All) : M (option error) :=
  log (EvBlob fPath offset props) ;;
  ret (fs_Blob env fs ctx fPath offset props).

Definition Reader_ (fs : Filesystem) (ctx : Context) (reader : Reader)
  (props : properties.All) : M (string * option error) :=
  log (EvReader reader props) ;; ret (fs_Reader env fs ctx reader props).

Definition CompressionDiscovery (fPath : string)
  : M properties.CompressionType :=
  log (EvCompressionDiscovery fPath) ;;
  ret (filesystem_CompressionDiscovery env fPath).

Definition Open (fPath : string) : M (error + Reader) :=
  log (EvOpen fPath) ;;
  match os_Open env fPath with
  | inl err => ret (inl err)
  | inr content => ret (inr (os_File fPath content))
  end.

Definition Write (c : Conn) (ctx : Context) (db table : string)
  (payload : Reader) (format : properties.DataFormat)
  (mappingRef requestID : string) : M (option error) :=
  log (EvWrite c db table payload format mappingRef requestID) ;;
  ret (conn_Write env c ctx db table payload format mappingRef requestID).

(** The loop [for _, o := range options] with its early return: the options
    run in call order on the property set, the [n]-th with the five mode
    flags, until one gives an error. *)
Fixpoint run_options (options : list FileOption) (n : nat)
  (props : properties.All) (isFile isBlob isReader queued streaming : bool)
  : M (properties.All * option error) :=
  match options with
  | [] => ret (props, None)
  | o :: rest =>
      log (EvRun n isFile isBlob isReader queued streaming) ;;
      match Run o props isFile isBlob isReader queued streaming with
      | (props', Some err) => ret (props', Some err)
      | (props', None) =>
          run_options rest (S n) props' isFile isBlob isReader queued streaming
      end
  end.

(** *** kusto/ingest/ingest.go *)

(** [getManager]: the stored Manager when [manager.Load()] finds one;
    otherwise, under [managerMu], a new one from [client], stored unless its
    construction failed. *)
Definition getManager (client : Client) : M (option Manager * option error) :=
  i <- manager_Load ;;
  match i with
  | None =>
      Lock managerMu ;;
      r <- resources_New client ;;
      match r with
      | inl err => Unlock managerMu ;; ret (None, Some err)
      | inr mgr =>
          manager_Store mgr ;;
          Unlock managerMu ;;
          ret (Some mgr, None)
      end
  | Some m => ret (Some m, None)
  end.

(** Calls one after the other, each with its own client. *)
Fixpoint getManager_each (clients : list Client)
  : M (list (option Manager * option error)) :=
  match clients with
  | [] => ret []
  | c :: rest =>
      r <- getManager c ;;
      rs <- getManager_each rest ;;
      ret (r :: rs)
  end.

(** The struct [Ingestion]; [connMu] is the mutex of this value. *)
Record Ingestion : Type := {
  db : string;
  table : string;
  client : Client;
  mgr : Manager;
  fs : Filesystem;
  streamConn : option Conn
}.

Definition set_streamConn (i : Ingestion) (sc : option Conn) : Ingestion :=
  {| db := db i; table := table i; client := client i; mgr := mgr i;
     fs := fs i; streamConn := sc |}.

Definition New (client : Client) (db table : string)
  : M (option Ingestion * option error) :=
  m <- getManager client ;;
  match m with
  | (_, Some err) => ret (None, Some err)
  | (None, None) => ret (None, Some nil_dereference)
  | (Some mgr, None) =>
      f <- filesystem_New db table mgr ;;
      match f with
      | inl err => ret (None, Some err)
      | inr fs =>
          ret (Some {| db := db; table := table; client := client;
                       mgr := mgr; fs := fs; streamConn := None |}, None)
      end
  end.

Definition newProp (i : Ingestion) (auth : string) : properties.All :=
  {| properties.Ingestion_ :=
       {| properties.DatabaseName := db i;
          properties.TableName := table i;
          properties.RetainBlobOnSuccess := true;
          properties.ReportLevel := properties.FailuresOnly;
          properties.ReportMethod := properties.ReportStatusToQueue;
          properties.TableEntryRef := properties.zero_TableEntryRef;
          properties.Additional_ :=
            {| properties.Format := properties.DFUnknown;
               properties.IngestionMappingRef := "";
               properties.AuthContext := auth |} |};
     properties.Streaming_ := properties.zero_Streaming;
     properties.Source := properties.zero_Source |}.

Definition no_status_table : error :=
  fmt_Errorf "User requested reporting status to table, yet status table resource URI is not found".

(** [if props.Source.ID == uuid.Nil { props.Source.ID = uuid.New() }] *)
Definition assign_ID (props : properties.All) : M properties.All :=
  if uuid.eqb (properties.ID (properties.Source props)) uuid.Nil
  then u <- uuid_New ;; ret (properties.set_ID props u)
  else ret props.

Definition prepForIngestion (i : Ingestion) (ctx : Context)
  (options : list FileOption) (isFile isBlob isReader : bool)
  : M (option Result * properties.All * option error) :=
  let result := newResult in
  a <- AuthContext (mgr i) ctx ;;
  match a with
  | (_, Some err) => ret (None, properties.zero_All, Some err)
  | (auth, None) =>
  let props := newProp i auth in
  o <- run_options options 0 props isFile isBlob isReader true false ;;
  match o with
  | (_, Some err) => ret (None, properties.zero_All, Some err)
  | (props, None) =>
  if negb (properties.level_is_None
             (properties.ReportLevel (properties.Ingestion_ props)))
  then
    props <- assign_ID props ;;
    match properties.ReportMethod (properties.Ingestion_ props) with
    | properties.ReportStatusToTable
    | properties.ReportStatusToQueueAndTable =>
        m <- Resources_ (mgr i) ;;
        match m with
        | (_, Some err) => ret (None, properties.zero_All, Some err)
        | (managerResources, None) =>
            match Tables managerResources with
            | [] => ret (None, properties.zero_All, Some no_status_table)
            | t0 :: _ =>
                let props :=
                  properties.set_TableConnectionString props (URL_String t0) in
                let props :=
                  properties.set_PartitionKey props
                    (uuid.String (properties.ID (properties.Source props))) in
                let props :=
                  properties.set_RowKey props (uuid.String uuid.Nil) in
                ret (Some (putProps result props), props, None)
            end
        end
    | properties.ReportStatusToQueue =>
        ret (Some (putProps result props), props, None)
    end
  else ret (Some (putProps result props), props, None)
  end
  end.

(** Queued [FromFile]. *)
Definition Ingestion_FromFile (i : Ingestion) (ctx : Context)
  (fPath : string) (options : list FileOption)
  : M (option Result * option error) :=
  l <- IsLocalPath fPath ;;
  match l with
  | (_, Some err) => ret (None, Some err)
  | (local, None) =>
  p <- prepForIngestion i ctx options local (negb local) false ;;
  match p with
  | (_, _, Some err) => ret (None, Some err)
  | (None, _, None) => ret (None, Some nil_dereference)
  | (Some result, props, None) =>
  let result := set_IngestionSourcePath result fPath in
  err <- (if local then Local (fs i) ctx fPath props
          else Blob (fs i) ctx fPath 0 props) ;;
  match err with
  | Some err => ret (None, Some err)
  | None =>
      let result := putQueued result (mgr i) in
      ret (Some result, None)
  end
  end
  end.

Definition missing_format : error :=
  fmt_Errorf "must provide option FileFormat() when using FromReader()".

(** Queued [FromReader]. *)
Definition Ingestion_FromReader (i : Ingestion) (ctx : Context)
  (reader : Reader) (options : list FileOption)
  : M (option Result * option error) :=
  p <- prepForIngestion i ctx options false false true ;;
  match p with
  | (_, _, Some err) => ret (None, Some err)
  | (result, props, None) =>
  if properties.format_is_DFUnknown
       (properties.Format
          (properties.Additional_ (properties.Ingestion_ props)))
  then ret (None, Some missing_format)
  else
    r <- Reader_ (fs i) ctx reader props ;;
    match r with
    | (_, Some err) => ret (None, Some err)
    | (path, None) =>
        match result with
        | None => ret (None, Some nil_dereference)
        | Some result =>
            let result := set_IngestionSourcePath result path in
            let result := putQueued result (mgr i) in
            ret (Some result, None)
        end
    end
  end.

(** [getStreamConn]: the whole body runs under [connMu]. *)
Definition getStreamConn (i : Ingestion)
  : M (Ingestion * (option Conn * option error)) :=
  Lock connMu ;;
  match streamConn i with
  | Some c => Unlock connMu ;; ret (i, (Some c, None))
  | None =>
      r <- conn_New (Endpoint (client i)) (Auth (client i)) ;;
      match r with
      | inl err => Unlock connMu ;; ret (i, (None, Some err))
      | inr sc =>
          let i := set_streamConn i (Some sc) in
          Unlock connMu ;;
          ret (i, (streamConn i, None))
      end
  end.

(** *** The streaming orchestrator *)

Record StreamingIngestion : Type := {
  s_db : string;
  s_table : string;
  s_client : Client;
  s_streamConn : Conn
}.

Definition NewStreaming (client : Client) (db table : string)
  : M (option StreamingIngestion * option error) :=
  r <- conn_New (Endpoint client) (Auth client) ;;
  match r with
  | inl err => ret (None, Some err)
  | inr streamConn =>
      ret (Some {| s_db := db; s_table := table; s_client := client;
                   s_streamConn := streamConn |}, None)
  end.

Definition StreamingIngestion_newProp (i : StreamingIngestion)
  : properties.All :=
  {| properties.Ingestion_ :=
       {| properties.DatabaseName := s_db i;
          properties.TableName := s_table i;
          properties.RetainBlobOnSuccess := false;
          properties.ReportLevel := properties.FailuresOnly;
          properties.ReportMethod := properties.ReportStatusToQueue;
          properties.TableEntryRef := properties.zero_TableEntryRef;
          properties.Additional_ := properties.zero_Additional |};
     properties.Streaming_ := properties.zero_Streaming;
     properties.Source := properties.zero_Source |}.

(** The first block of [streamImpl]: when compression is requested the
    payload is made a [ReadCloser] if it is none and a new gzip streamer is
    reset onto it. *)
Definition outgoing (props : properties.All) (payload : Reader) : Reader :=
  if properties.ShouldCompress (properties.Streaming_ props) then
    let closer :=
      if is_ReadCloser payload then payload else ioutil_NopCloser payload in
    gzip_Reset closer
  else payload.

Definition streamImpl (db table : string) (c : Conn) (ctx : Context)
  (payload : Reader) (props : properties.All)
  : M (option Result * option error) :=
  let payload := outgoing props payload in
  err <- Write c ctx db table payload
           (properties.Format
              (properties.Additional_ (properties.Ingestion_ props)))
           (properties.IngestionMappingRef
              (properties.Additional_ (properties.Ingestion_ props)))
           (properties.ClientRequestId (properties.Streaming_ props)) ;;
  match err with
  | Some err => ret (None, Some (errors_E OpIngestStream KClientArgs err))
  | None =>
      let result := newResult in
      let result := putProps result props in
      let result := set_Status result "Success" in
      ret (Some result, None)
  end.

Definition blobstore_not_supported : error :=
  errors_ES OpFileIngest KClientArgs
    "blobstore paths are not supported for streaming".

(** [discovery != properties.CTUnknown && discovery != properties.CTNone] *)
Definition detected (discovery : properties.CompressionType) : bool :=
  match discovery with
  | properties.CTUnknown | properties.CTNone => false
  | _ => true
  end.

(** Streaming [FromFile]. *)
Definition StreamingIngestion_FromFile (i : StreamingIngestion)
  (ctx : Context) (fPath : string) (options : list FileOption)
  : M (option Result * option error) :=
  l <- IsLocalPath fPath ;;
  match l with
  | (_, Some err) => ret (None, Some err)
  | (local, None) =>
  if negb local then ret (None, Some blobstore_not_supported)
  else
  let props := StreamingIngestion_newProp i in
  o <- run_options options 0 props true false false false true ;;
  match o with
  | (_, Some err) => ret (None, Some err)
  | (props, None) =>
  discovery <- CompressionDiscovery fPath ;;
  let props :=
    if detected discovery then properties.set_ShouldCompress props true
    else props in
  f <- Open fPath ;;
  match f with
  | inl err => ret (None, Some err)
  | inr file =>
      streamImpl (s_db i) (s_table i) (s_streamConn i) ctx file props
  end
  end
  end.

(** Streaming [FromReader]. *)
Definition StreamingIngestion_FromReader (i : StreamingIngestion)
  (ctx : Context) (reader : Reader) (options : list FileOption)
  : M (option Result * option error) :=
  let props := StreamingIngestion_newProp i in
  o <- run_options options 0 props false false true false true ;;
  match o with
  | (_, Some err) => ret (None, Some err)
  | (props, None) =>
      let props := properties.set_ShouldCompress props true in
      streamImpl (s_db i) (s_table i) (s_streamConn i) ctx reader props
  end.

(** [Stream], of [Ingestion]. *)
Definition Stream (i : Ingestion) (ctx : Context) (payload : list Byte.byte)
  (format : properties.DataFormat) (mappingName : string)
  : M (Ingestion * option error) :=
  g <- getStreamConn i ;;
  match g with
  | (i, (_, Some err)) => ret (i, Some err)
  | (i, (None, None)) => ret (i, Some nil_dereference)
  | (i, (Some c, None)) =>
      let props :=
        {| properties.Ingestion_ :=
             {| properties.DatabaseName := db i;
                properties.TableName := table i;
                properties.RetainBlobOnSuccess := false;
                properties.ReportLevel := properties.FailuresOnly;
                properties.ReportMethod := properties.ReportStatusToQueue;
                properties.TableEntryRef := properties.zero_TableEntryRef;
                properties.Additional_ :=
                  {| properties.Format := format;
                     properties.IngestionMappingRef := mappingName;
                     properties.AuthContext := "" |} |};
           properties.Streaming_ := properties.zero_Streaming;
           properties.Source := properties.zero_Source |} in
      r <- streamImpl (db i) (table i) c ctx (bytes_NewReader payload) props ;;
      ret (i, snd r)
  end.

End Ingest.

(** ** Observations on traces *)

(** The staging calls of a trace ([Local], [Blob], [Reader]). *)
Definition is_upload (e : Event) : bool :=
  match e with
  | EvLocal _ _ | EvBlob _ _ _ | EvReader _ _ => true
  | _ => false
  end.

Definition uploads (t : list Event) : list Event := filter is_upload t.

(** The payloads handed to [Conn.Write], in order. *)
Fixpoint writes (t : list Event) : list Reader :=
  match t with
  | [] => []
  | EvWrite _ _ _ payload _ _ _ :: t' => payload :: writes t'
  | _ :: t' => writes t'
  end.

(** [s'] is [s] after the calls [l]: the trace grows by [l], and neither
    the stored Manager nor the allocation counts of Managers and connections
    change. *)
Record extends (s s' : State) (l : list Event) : Prop := {
  ext_trace : trace s' = trace s ++ l;
  ext_manager : manager s' = manager s;
  ext_managers : managers_made s' = managers_made s;
  ext_conns : conns_made s' = conns_made s
}.

Definition is_Run (e : Event) : Prop :=
  match e with EvRun _ _ _ _ _ _ => True | _ => False end.

(** A stretch of a run in which nothing is staged and nothing is written. *)
Definition quiet (s s' : State) : Prop :=
  exists l, extends s s' l /\ uploads l = [] /\ writes l = [].

(** An event that neither locks nor makes a connection and that, if it is a
    write, writes on [c]. *)
Definition on_conn (c : Conn) (e : Event) : Prop :=
  match e with
  | EvWrite c' _ _ _ _ _ _ => c' = c
  | EvConnNew _ _ | EvLock _ | EvUnlock _ => False
  | _ => True
  end.

Definition within (P : Event -> Prop) (s s' : State) : Prop :=
  exists l, extends s s' l /\ Forall P l.

(** Go's pair of a pointer and an error holds exactly one of the two. *)
Definition exactly_one {A : Type} (r : option A * option error) : Prop :=
  match r with
  | (Some _, None) | (None, Some _) => True
  | _ => False
  end.

(** An option that leaves the format of the property set alone. *)
Definition keeps_Format (o : FileOption) : Prop :=
  forall p isFile isBlob isReader queued streaming,
    properties.Format (properties.Additional_ (properties.Ingestion_
      (fst (Run o p isFile isBlob isReader queued streaming))))
    = properties.Format (properties.Additional_ (properties.Ingestion_ p)).

(** ** Interleavings of concurrent callers

    Threads are numbered; a schedule names the thread that takes the next
    atomic step.  A thread that cannot move (it waits for the mutex, or it has
    returned) leaves the state as it is. *)

Section Pool.

Variables Sh PC : Type.
Variable step : nat -> Sh -> PC -> option (Sh * PC).

Definition upd (pool : nat -> PC) (t : nat) (p : PC) : nat -> PC :=
  fun u => if Nat.eqb u t then p else pool u.

Definition pool_step (t : nat) (st : Sh * (nat -> PC)) : Sh * (nat -> PC) :=
  match step t (fst st) (snd st t) with
  | Some (sh', p') => (sh', upd (snd st) t p')
  | None => st
  end.

Fixpoint run_schedule (sched : list nat) (st : Sh * (nat -> PC))
  : Sh * (nat -> PC) :=
  match sched with
  | [] => st
  | t :: rest => run_schedule rest (pool_step t st)
  end.

(** [n] steps of one thread, seen from that thread. *)
Fixpoint alone (t n : nat) (x : Sh * PC) : Sh * PC :=
  match n with
  | O => x
  | S n' =>
      alone t n' (match step t (fst x) (snd x) with
                  | Some y => y
                  | None => x
                  end)
  end.

End Pool.

(** [getStreamConn] as atomic steps of one caller on one [Ingestion]. *)
Module ConnThreads.

Inductive pc : Type :=
| AtLock
| AtCheck
| AtNew
| AtStore (sc : Conn)
| AtUnlock (r : option Conn * option error)
| Returned (r : option Conn * option error).

(** What the callers share: [connMu], the field [streamConn], the number of
    connections [conn.New] has made and the number of times it was called. *)
Record Shared : Type := {
  held : bool;
  stored : option Conn;
  made : nat;
  attempts : nat
}.

(** [new_err n] is the error of the call of [conn.New] that comes after [n]
    earlier ones, so that a call may fail and a later one succeed. *)
Definition step (new_err : nat -> option error) (cl : Client) (_ : nat)
  (sh : Shared) (p : pc) : option (Shared * pc) :=
  match p with
  | AtLock =>
      if held sh then None
      else Some ({| held := true; stored := stored sh; made := made sh;
                    attempts := attempts sh |}, AtCheck)
  | AtCheck =>
      match stored sh with
      | Some c => Some (sh, AtUnlock (Some c, None))
      | None => Some (sh, AtNew)
      end
  | AtNew =>
      match new_err (attempts sh) with
      | Some err =>
          Some ({| held := held sh; stored := stored sh; made := made sh;
                   attempts := S (attempts sh) |},
                AtUnlock (None, Some err))
      | None =>
          Some ({| held := held sh; stored := stored sh; made := S (made sh);
                   attempts := S (attempts sh) |},
                AtStore {| conn_id := made sh; conn_endpoint := Endpoint cl;
                           conn_auth := Auth cl |})
      end
  | AtStore sc =>
      Some ({| held := held sh; stored := Some sc; made := made sh;
               attempts := attempts sh |},
            AtUnlock (Some sc, None))
  | AtUnlock r =>
      Some ({| held := false; stored := stored sh; made := made sh;
               attempts := attempts sh |},
            Returned r)
  | Returned _ => None
  end.

(** A new [Ingestion] and its callers, none of which has started. *)
Definition start : Shared * (nat -> pc) :=
  ({| held := false; stored := None; made := 0; attempts := 0 |},
   fun _ => AtLock).

Definition run (new_err : nat -> option error) (cl : Client)
  (sched : list nat) : Shared * (nat -> pc) :=
  run_schedule Shared pc (step new_err cl) sched start.

(** [conn.New] as the environment of the sequential functions has it. *)
Definition new_err_of (env : Env) (cl : Client) : nat -> option error :=
  fun _ => conn_New_err env (Endpoint cl) (Auth cl).

(** Holding [connMu]. *)
Definition critical (p : pc) : bool :=
  match p with
  | AtCheck | AtNew | AtStore _ | AtUnlock _ => true
  | AtLock | Returned _ => false
  end.

Definition creating (p : pc) : bool :=
  match p with
  | AtNew | AtStore _ => true
  | _ => false
  end.

Definition result_of (p : pc) : option (option Conn * option error) :=
  match p with
  | AtUnlock r | Returned r => Some r
  | _ => None
  end.

(** What every reachable state of the callers satisfies: the mutex is
    exclusive, at most one connection has been made, and a caller that has
    its return values set holds the stored connection or an error. *)
Definition well_formed (r : option Conn * option error) (sh : Shared) : Prop :=
  match r with
  | (Some c, None) => stored sh = Some c
  | (None, Some _) => True
  | _ => False
  end.

Record Inv (st : Shared * (nat -> pc)) : Prop := {
  inv_free : held (fst st) = false -> forall t, critical (snd st t) = false;
  inv_mutex : forall t u,
    critical (snd st t) = true -> critical (snd st u) = true -> t = u;
  inv_made :
    match stored (fst st) with
    | Some _ => made (fst st) = 1 /\ forall t, creating (snd st t) = false
    | None =>
        (made (fst st) = 0 /\ forall t sc, snd st t <> AtStore sc)
        \/ (made (fst st) = 1 /\ exists t sc, snd st t = AtStore sc)
    end;
  inv_result : forall t r,
    result_of (snd st t) = Some r -> well_formed r (fst st)
}.

(** While [connMu] is held, some caller is between its Lock and its
    Unlock. *)
Definition holder (st : Shared * (nat -> pc)) : Prop :=
  held (fst st) = true -> exists t, critical (snd st t) = true.

End ConnThreads.

(** [getManager] as atomic steps; caller [t] passes the client [cl t]. *)
Module ManagerThreads.

Inductive pc : Type :=
| AtLoad
| AtLock
| AtNew
| AtStore (mgr : Manager)
| AtUnlock (r : option Manager * option error)
| Returned (r : option Manager * option error).

Record Shared : Type := {
  held : bool;
  stored : option Manager;
  made : nat
}.

Definition step (env : Env) (cl : nat -> Client) (t : nat) (sh : Shared)
  (p : pc) : option (Shared * pc) :=
  match p with
  | AtLoad =>
      match stored sh with
      | Some m => Some (sh, Returned (Some m, None))
      | None => Some (sh, AtLock)
      end
  | AtLock =>
      if held sh then None
      else Some ({| held := true; stored := stored sh; made := made sh |},
                 AtNew)
  | AtNew =>
      match resources_New_err env (cl t) with
      | Some err => Some (sh, AtUnlock (None, Some err))
      | None =>
          Some ({| held := held sh; stored := stored sh; made := S (made sh) |},
                AtStore {| manager_id := made sh; manager_client := cl t |})
      end
  | AtStore mgr =>
      Some ({| held := held sh; stored := Some mgr; made := made sh |},
            AtUnlock (Some mgr, None))
  | AtUnlock r =>
      Some ({| held := false; stored := stored sh; made := made sh |},
            Returned r)
  | Returned _ => None
  end.

Definition start : Shared * (nat -> pc) :=
  ({| held := false; stored := None; made := 0 |}, fun _ => AtLoad).

Definition run (env : Env) (cl : nat -> Client) (sched : list nat)
  : Shared * (nat -> pc) :=
  run_schedule Shared pc (step env cl) sched start.

End ManagerThreads.

(** ** A backend with the size ceiling, and sample environments *)

(** The number of bytes of a payload, counted in binary. *)
Definition size (b : list Byte.byte) : N :=
  fold_left (fun n _ => N.succ n) b 0%N.

Definition ceiling : N := 4 * 1024 * 1024.

Definition payload_too_large : error := collaborator_error "backend" 413.

(** Modelled from the spec: the connection and the backend behind it are
    collaborators.  Section 4.3: the backend enforces a hard size ceiling,
    payloads of 4 MiB or more are rejected.  The size is that of the bytes of
    the source, which are the bytes on the wire when no gzip encoder is in
    the way. *)
Definition backend_Write (c : Conn) (ctx : Context) (db table : string)
  (payload : Reader) (format : properties.DataFormat)
  (mappingRef requestID : string) : option error :=
  if (ceiling <=? size (source_bytes payload))%N then Some payload_too_large
  else None.

Definition status_table : URI :=
  {| URL_String := "https://account.table.core.windows.net/status?sv=1" |}.

Definition sample_Resources : Resources :=
  {| Queues := []; Containers := []; Tables := [status_table] |}.

(** Every collaborator succeeds; a path that starts with the https scheme
    is a blob store URI, and the file data.csv.gz is a gzip file. *)
Definition sample_env : Env :=
  {| resources_New_err := fun _ => None;
     filesystem_New_err := fun _ _ _ => None;
     mgr_AuthContext := fun _ _ => ("token", None);
     mgr_Resources := fun _ => (sample_Resources, None);
     filesystem_IsLocalPath := fun fPath =>
       (negb (String.prefix "https://" fPath), None);
     fs_Local := fun _ _ _ _ => None;
     fs_Blob := fun _ _ _ _ _ => None;
     fs_Reader := fun _ _ _ _ => ("https://account.blob/staged.gz", None);
     filesystem_CompressionDiscovery := fun fPath =>
       if String.eqb fPath "data.csv.gz" then properties.GZIP
       else properties.CTNone;
     os_Open := fun _ => inr [];
     conn_New_err := fun _ _ => None;
     conn_Write := backend_Write;
     rand_Read := fun n => Z.of_nat n |}.

(** As [sample_env], with no status table among the resources. *)
Definition no_table_env : Env :=
  {| resources_New_err := resources_New_err sample_env;
     filesystem_New_err := filesystem_New_err sample_env;
     mgr_AuthContext := mgr_AuthContext sample_env;
     mgr_Resources := fun _ =>
       ({| Queues := []; Containers := []; Tables := [] |}, None);
     filesystem_IsLocalPath := filesystem_IsLocalPath sample_env;
     fs_Local := fs_Local sample_env;
     fs_Blob := fs_Blob sample_env;
     fs_Reader := fs_Reader sample_env;
     filesystem_CompressionDiscovery :=
       filesystem_CompressionDiscovery sample_env;
     os_Open := os_Open sample_env;
     conn_New_err := conn_New_err sample_env;
     conn_Write := conn_Write sample_env;
     rand_Read := rand_Read sample_env |}.

Definition client_a : Client :=
  {| client_id := 1; Endpoint := "https://a.kusto.windows.net";
     Auth := "auth-a" |}.

Definition client_b : Client :=
  {| client_id := 2; Endpoint := "https://b.kusto.windows.net";
     Auth := "auth-b" |}.

Definition manager_a : Manager :=
  {| manager_id := 0; manager_client := client_a |}.

Definition conn_a : Conn :=
  {| conn_id := 0; conn_endpoint := Endpoint client_a;
     conn_auth := Auth client_a |}.

Definition sample_Ingestion : Ingestion :=
  {| db := "db"; table := "events"; client := client_a; mgr := manager_a;
     fs := {| fs_db := "db"; fs_table := "events"; fs_mgr := manager_a |};
     streamConn := None |}.

Definition sample_Streaming : StreamingIngestion :=
  {| s_db := "db"; s_table := "events"; s_client := client_a;
     s_streamConn := conn_a |}.

Definition background : Context := {| ctx_id := 0 |}.

(** Options in the manner of [FileFormat], [ReportResultToTable] and
    [FlushImmediately]: each touches the fields it owns. *)
Definition set_Format (p : properties.All) (f : properties.DataFormat)
  : properties.All :=
  {| properties.Ingestion_ :=
       {| properties.DatabaseName :=
            properties.DatabaseName (properties.Ingestion_ p);
          properties.TableName :=
            properties.TableName (properties.Ingestion_ p);
          properties.RetainBlobOnSuccess :=
            properties.RetainBlobOnSuccess (properties.Ingestion_ p);
          properties.ReportLevel :=
            properties.ReportLevel (properties.Ingestion_ p);
          properties.ReportMethod :=
            properties.ReportMethod (properties.Ingestion_ p);
          properties.TableEntryRef :=
            properties.TableEntryRef (properties.Ingestion_ p);
          properties.Additional_ :=
            {| properties.Format := f;
               properties.IngestionMappingRef :=
                 properties.IngestionMappingRef
                   (properties.Additional_ (properties.Ingestion_ p));
               properties.AuthContext :=
                 properties.AuthContext
                   (properties.Additional_ (properties.Ingestion_ p)) |} |};
     properties.Streaming_ := properties.Streaming_ p;
     properties.Source := properties.Source p |}.

Definition set_Report (p : properties.All)
  (l : properties.StatusReportLevel) (m : properties.IngestionReportMethod)
  : properties.All :=
  {| properties.Ingestion_ :=
       {| properties.DatabaseName :=
            properties.DatabaseName (properties.Ingestion_ p);
          properties.TableName :=
            properties.TableName (properties.Ingestion_ p);
          properties.RetainBlobOnSuccess :=
            properties.RetainBlobOnSuccess (properties.Ingestion_ p);
          properties.ReportLevel := l;
          properties.ReportMethod := m;
          properties.TableEntryRef :=
            properties.TableEntryRef (properties.Ingestion_ p);
          properties.Additional_ :=
            properties.Additional_ (properties.Ingestion_ p) |};
     properties.Streaming_ := properties.Streaming_ p;
     properties.Source := properties.Source p |}.

Definition FileFormat (f : properties.DataFormat) : FileOption :=
  {| Run := fun p _ _ _ _ _ => (set_Format p f, None) |}.

Definition ReportResultToTable : FileOption :=
  {| Run := fun p _ _ _ _ _ =>
       (set_Report p properties.FailureAndSuccess
          properties.ReportStatusToTable, None) |}.

(** The bytes [x] repeated [n] times. *)
Definition filled (n : N) (x : Byte.byte) : list Byte.byte :=
  N.iter n (cons x) [].

(** ** Further observations, for the parts of the two files around the
    entry points *)

(** The connections written on, in order. *)
Fixpoint write_conns (t : list Event) : list Conn :=
  match t with
  | [] => []
  | EvWrite c _ _ _ _ _ _ :: t' => c :: write_conns t'
  | _ :: t' => write_conns t'
  end.

(** The number of calls of [conn.New] in a trace. *)
Definition is_ConnNew (e : Event) : bool :=
  match e with EvConnNew _ _ => true | _ => false end.

Definition conn_news (t : list Event) : nat := length (filter is_ConnNew t).

(** The run events of [k] options from position [n] on, with their flags. *)
Definition runs (n k : nat) (isFile isBlob isReader queued streaming : bool)
  : list Event :=
  map (fun j => EvRun j isFile isBlob isReader queued streaming) (seq n k).

(** If [e] is the run of an option, it carries these mode flags. *)
Definition flags_are (isFile isBlob isReader queued streaming : bool)
  (e : Event) : Prop :=
  match e with
  | EvRun _ f b r q st =>
      f = isFile /\ b = isBlob /\ r = isReader /\ q = queued /\ st = streaming
  | _ => True
  end.

(** The calls of the queued path and those of the streaming path. *)
Definition queued_event (e : Event) : Prop :=
  match e with
  | EvIsLocalPath _ | EvAuthContext _ | EvResources _ | EvUuidNew
  | EvRun _ _ _ _ _ _ | EvLocal _ _ | EvBlob _ _ _ | EvReader _ _ => True
  | _ => False
  end.

Definition streaming_event (e : Event) : Prop :=
  match e with
  | EvIsLocalPath _ | EvRun _ _ _ _ _ _ | EvCompressionDiscovery _
  | EvOpen _ | EvWrite _ _ _ _ _ _ _ => True
  | _ => False
  end.

(** [Stream] on each payload in turn, on the orchestrator as the call before
    left it. *)
Fixpoint Stream_each (env : Env) (i : Ingestion) (ctx : Context)
  (payloads : list (list Byte.byte)) (format : properties.DataFormat)
  (mappingName : string) : M (Ingestion * list (option error)) :=
  match payloads with
  | [] => ret (i, [])
  | payload :: rest =>
      r <- Stream env i ctx payload format mappingName ;;
      rs <- Stream_each env (fst r) ctx rest format mappingName ;;
      ret (fst rs, snd r :: snd rs)
  end.

(** An option that refuses every mode, for the sample runs. *)
Definition refusing : FileOption :=
  {| Run := fun p _ _ _ _ _ =>
       (p, Some (errors_ES OpFileIngest KClientArgs "option not supported")) |}.

(** As [sample_env], with [conn.New] failing. *)
Definition no_conn : error := collaborator_error "conn.New" 1.

Definition no_conn_env : Env :=
  {| resources_New_err := resources_New_err sample_env;
     filesystem_New_err := filesystem_New_err sample_env;
     mgr_AuthContext := mgr_AuthContext sample_env;
     mgr_Resources := mgr_Resources sample_env;
     filesystem_IsLocalPath := filesystem_IsLocalPath sample_env;
     fs_Local := fs_Local sample_env;
     fs_Blob := fs_Blob sample_env;
     fs_Reader := fs_Reader sample_env;
     filesystem_CompressionDiscovery :=
       filesystem_CompressionDiscovery sample_env;
     os_Open := os_Open sample_env;
     conn_New_err := fun _ _ => Some no_conn;
     conn_Write := conn_Write sample_env;
     rand_Read := rand_Read sample_env |}.

(** As [sample_env], with [resources.New] failing. *)
Definition no_manager : error := collaborator_error "resources.New" 1.

Definition no_manager_env : Env :=
  {| resources_New_err := fun _ => Some no_manager;
     filesystem_New_err := filesystem_New_err sample_env;
     mgr_AuthContext := mgr_AuthContext sample_env;
     mgr_Resources := mgr_Resources sample_env;
     filesystem_IsLocalPath := filesystem_IsLocalPath sample_env;
     fs_Local := fs_Local sample_env;
     fs_Blob := fs_Blob sample_env;
     fs_Reader := fs_Reader sample_env;
     filesystem_CompressionDiscovery :=
       filesystem_CompressionDiscovery sample_env;
     os_Open := os_Open sample_env;
     conn_New_err := conn_New_err sample_env;
     conn_Write := conn_Write sample_env;
     rand_Read := rand_Read sample_env |}.

(** Options that set the report level and method, for the sample runs. *)
Definition ReportNothingToTable : FileOption :=
  {| Run := fun p _ _ _ _ _ =>
       (set_Report p properties.None properties.ReportStatusToTable, None) |}.

Definition ReportResultToQueue : FileOption :=
  {| Run := fun p _ _ _ _ _ =>
       (set_Report p properties.FailureAndSuccess
          properties.ReportStatusToQueue, None) |}.

(** * Properties *)

(** Unfolds the state passing of the collaborator calls. *)
Ltac run_calls :=
  unfold Lock, Unlock, manager_Load, manager_Store, resources_New,
    filesystem_New, conn_New, uuid_New, AuthContext, Resources_, IsLocalPath,
    Local, Blob, Reader_, CompressionDiscovery, Open, Write, set_manager,
    fresh_manager, fresh_conn, fresh_uuid, log, bind, ret;
  cbn [fst snd manager managers_made conns_made uuids_made trace].

(** ** UUIDs *)

Lemma String_Nil :
  uuid.String uuid.Nil = "00000000-0000-0000-0000-000000000000".
Proof. reflexivity. Qed.

Lemma String_New_sample :
  uuid.String (uuid.New 0) = "00000000-0000-4000-8000-000000000000"
  /\ uuid.String (uuid.New (2 ^ 128 - 1))
     = "ffffffff-ffff-4fff-bfff-ffffffffffff".
Proof. split; vm_compute; reflexivity. Qed.

(** Bit 6 of byte 6 is set by the version nibble, so a new UUID is never
    the nil UUID. *)
Lemma New_testbit (r : Z) : Z.testbit (uuid.New r) 78 = true.
Proof.
  unfold uuid.New, uuid.set_byte, uuid.byte_shift.
  rewrite Z.lor_spec, Z.land_spec, Z.lor_spec.
  rewrite Z.lnot_spec by lia.
  rewrite !Z.shiftl_spec by lia.
  cbn. now rewrite orb_true_r.
Qed.

Lemma New_not_Nil (r : Z) : uuid.New r <> uuid.Nil.
Proof.
  intro H. pose proof (New_testbit r) as Hb. rewrite H in Hb.
  discriminate Hb.
Qed.

(** ** The Resource Manager accessor *)

Section ManagerAccessor.

Variable env : Env.

Lemma getManager_hit (client : Client) (s : State) (m : Manager) :
  manager s = Some m ->
  getManager env client s = ((Some m, None), s).
Proof.
  intros H. unfold getManager. run_calls. now rewrite H.
Qed.

Lemma getManager_miss (client : Client) (s : State) :
  manager s = None ->
  resources_New_err env client = None ->
  let mgr := {| manager_id := managers_made s; manager_client := client |} in
  getManager env client s
  = ((Some mgr, None),
     {| manager := Some mgr; managers_made := S (managers_made s);
        conns_made := conns_made s; uuids_made := uuids_made s;
        trace := trace s ++ [EvLock managerMu] ++ [EvResourcesNew client]
                         ++ [EvUnlock managerMu] |}).
Proof.
  intros H Hok. unfold getManager. run_calls. rewrite H, Hok. run_calls.
  now rewrite <- !app_assoc.
Qed.

Lemma getManager_failure (client : Client) (s : State) (err : error) :
  manager s = None ->
  resources_New_err env client = Some err ->
  fst (getManager env client s) = (None, Some err)
  /\ manager (snd (getManager env client s)) = None
  /\ managers_made (snd (getManager env client s)) = managers_made s.
Proof.
  intros H Herr. unfold getManager. run_calls. rewrite H, Herr. run_calls.
  auto.
Qed.

Lemma getManager_each_hit (clients : list Client) (s : State) (m : Manager) :
  manager s = Some m ->
  getManager_each env clients s = (map (fun _ => (Some m, None)) clients, s).
Proof.
  intros H. induction clients as [|c rest IH]; [reflexivity|].
  cbn [getManager_each map]. unfold bind at 1.
  rewrite (getManager_hit c s m H). unfold bind at 1. rewrite IH.
  reflexivity.
Qed.

End ManagerAccessor.

(** C1 (amended): getManager keeps one process-wide Manager, whatever the
    client.  When a Manager is stored, a call returns it and changes nothing,
    for every client.  When none is stored and the construction succeeds, the
    call constructs exactly one Manager from its client, stores it and
    returns it, and every later call, with any client, returns that same
    Manager without constructing another.  When the construction fails the
    call returns the error, and nothing is stored. *)
Theorem getManager_process_wide (env : Env) (client : Client) (s : State) :
  (forall m, manager s = Some m ->
     getManager env client s = ((Some m, None), s))
  /\ (manager s = None -> resources_New_err env client = None ->
      let mgr :=
        {| manager_id := managers_made s; manager_client := client |} in
      let s' := snd (getManager env client s) in
      fst (getManager env client s) = (Some mgr, None)
      /\ manager s' = Some mgr
      /\ managers_made s' = S (managers_made s)
      /\ trace s'
         = trace s ++ [EvLock managerMu] ++ [EvResourcesNew client]
             ++ [EvUnlock managerMu]
      /\ forall later,
           getManager_each env later s'
           = (map (fun _ => (Some mgr, None)) later, s'))
  /\ (forall err, manager s = None ->
      resources_New_err env client = Some err ->
      fst (getManager env client s) = (None, Some err)
      /\ manager (snd (getManager env client s)) = None
      /\ managers_made (snd (getManager env client s)) = managers_made s).
Proof.
  split; [|split].
  - intros m H. now apply getManager_hit.
  - intros Hnone Hok mgr s'. subst s'.
    rewrite (getManager_miss env client s Hnone Hok). cbn [fst snd manager
      managers_made]. fold mgr.
    repeat split. intros later. now apply getManager_each_hit.
  - intros err Hnone Herr. now apply getManager_failure.
Qed.

Lemma getManager_process_wide_witness :
  fst (getManager sample_env client_a init_State) = (Some manager_a, None)
  /\ fst (getManager_each sample_env [client_b; client_a]
            (snd (getManager sample_env client_a init_State)))
     = [(Some manager_a, None); (Some manager_a, None)].
Proof.
  destruct (getManager_process_wide sample_env client_a init_State)
    as (_ & Hmiss & _).
  destruct (Hmiss eq_refl eq_refl) as (H1 & _ & _ & _ & H4).
  split; [exact H1|]. now rewrite H4.
Defined.

(** C1, as stated, fails: two calls with distinct clients obtain one and the
    same Manager, the one built from the first client. *)
Lemma getManager_distinct_clients_share :
  client_id client_a <> client_id client_b
  /\ fst (getManager sample_env client_a init_State) = (Some manager_a, None)
  /\ fst (getManager sample_env client_b
            (snd (getManager sample_env client_a init_State)))
     = (Some manager_a, None)
  /\ manager_client manager_a = client_a
  /\ managers_made
       (snd (getManager sample_env client_b
               (snd (getManager sample_env client_a init_State)))) = 1.
Proof.
  repeat split; try reflexivity. cbn. discriminate.
Qed.

(** The miss path does not look at the stored value again once it holds the
    mutex: two callers that both load before either stores construct a
    Manager each, and the second store replaces the first. *)
Lemma getManager_race :
  let final :=
    ManagerThreads.run sample_env (fun _ => client_a)
      [0; 1; 0; 0; 0; 0; 1; 1; 1; 1] in
  ManagerThreads.made (fst final) = 2
  /\ snd final 0
     = ManagerThreads.Returned
         (Some {| manager_id := 0; manager_client := client_a |}, None)
  /\ snd final 1
     = ManagerThreads.Returned
         (Some {| manager_id := 1; manager_client := client_a |}, None)
  /\ ManagerThreads.stored (fst final)
     = Some {| manager_id := 1; manager_client := client_a |}.
Proof. repeat split. Qed.

(** ** Traces *)

Lemma writes_app (a b : list Event) : writes (a ++ b) = writes a ++ writes b.
Proof.
  induction a as [|e a IH]; [reflexivity|].
  destruct e; cbn [app writes]; rewrite IH; reflexivity.
Qed.

Lemma uploads_app (a b : list Event) :
  uploads (a ++ b) = uploads a ++ uploads b.
Proof. apply filter_app. Qed.

Lemma extends_refl (s : State) : extends s s [].
Proof. split; try reflexivity. now rewrite app_nil_r. Qed.

Lemma extends_trans (s1 s2 s3 : State) (l1 l2 : list Event) :
  extends s1 s2 l1 -> extends s2 s3 l2 -> extends s1 s3 (l1 ++ l2).
Proof.
  intros [T1 M1 N1 C1] [T2 M2 N2 C2]. split; try congruence.
  now rewrite T2, T1, app_assoc.
Qed.

Lemma extends_log (e : Event) (s : State) : extends s (snd (log e s)) [e].
Proof. split; reflexivity. Qed.

(** ** Options *)

Lemma run_options_cons (o : FileOption) (rest : list FileOption) (n : nat)
  (props : properties.All) (isFile isBlob isReader queued streaming : bool)
  (s : State) :
  run_options (o :: rest) n props isFile isBlob isReader queued streaming s
  = match Run o props isFile isBlob isReader queued streaming with
    | (props', Some err) =>
        ((props', Some err),
         snd (log (EvRun n isFile isBlob isReader queued streaming) s))
    | (props', None) =>
        run_options rest (S n) props' isFile isBlob isReader queued streaming
          (snd (log (EvRun n isFile isBlob isReader queued streaming) s))
    end.
Proof.
  cbn [run_options]. unfold bind, log. cbn [snd].
  now destruct (Run o props isFile isBlob isReader queued streaming)
    as [props' [err|]].
Qed.

Lemma run_options_extends (options : list FileOption) :
  forall n props isFile isBlob isReader queued streaming s,
  exists l,
    extends s
      (snd (run_options options n props isFile isBlob isReader queued
              streaming s)) l
    /\ uuids_made
         (snd (run_options options n props isFile isBlob isReader queued
                 streaming s)) = uuids_made s
    /\ Forall is_Run l.
Proof.
  induction options as [|o rest IH]; intros n props isFile isBlob isReader
    queued streaming s.
  - exists []. cbn. split; [apply extends_refl|]. split; [reflexivity|].
    constructor.
  - rewrite run_options_cons.
    destruct (Run o props isFile isBlob isReader queued streaming)
      as [props' [err|]].
    + exists [EvRun n isFile isBlob isReader queued streaming].
      cbn [fst snd]. split; [apply extends_log|].
      split; [reflexivity|]. repeat constructor.
    + destruct (IH (S n) props' isFile isBlob isReader queued streaming
                  (snd (log (EvRun n isFile isBlob isReader queued
                               streaming) s)))
        as (l & Hext & Hu & Hl).
      exists ([EvRun n isFile isBlob isReader queued streaming] ++ l).
      split; [|split].
      * eapply extends_trans; [|exact Hext]. apply extends_log.
      * rewrite Hu. reflexivity.
      * constructor; [exact I|exact Hl].
Qed.

(** Options that keep the format hand back the format they were given. *)
Lemma run_options_keeps_Format (options : list FileOption) :
  Forall keeps_Format options ->
  forall n props isFile isBlob isReader queued streaming s,
    properties.Format (properties.Additional_ (properties.Ingestion_
      (fst (fst (run_options options n props isFile isBlob isReader queued
                   streaming s)))))
    = properties.Format (properties.Additional_ (properties.Ingestion_ props)).
Proof.
  induction 1 as [|o rest Ho _ IH]; intros n props isFile isBlob isReader
    queued streaming s; [reflexivity|].
  rewrite run_options_cons.
  specialize (Ho props isFile isBlob isReader queued streaming).
  destruct (Run o props isFile isBlob isReader queued streaming)
    as [props' [err|]]; cbn [fst] in Ho |- *.
  - exact Ho.
  - rewrite IH. exact Ho.
Qed.

Lemma is_Run_no_upload (l : list Event) : Forall is_Run l -> uploads l = [].
Proof.
  induction 1 as [|e l He _ IH]; [reflexivity|].
  destruct e; try contradiction. cbn. exact IH.
Qed.

Lemma is_Run_no_write (l : list Event) : Forall is_Run l -> writes l = [].
Proof.
  induction 1 as [|e l He _ IH]; [reflexivity|].
  destruct e; try contradiction. cbn. exact IH.
Qed.


(** ** streamImpl *)

Section Streaming.

Variable env : Env.

Lemma streamImpl_run (db table : string) (c : Conn) (ctx : Context)
  (payload : Reader) (props : properties.All) (s : State) :
  let format :=
    properties.Format (properties.Additional_ (properties.Ingestion_ props)) in
  let mappingRef :=
    properties.IngestionMappingRef
      (properties.Additional_ (properties.Ingestion_ props)) in
  let requestID := properties.ClientRequestId (properties.Streaming_ props) in
  streamImpl env db table c ctx payload props s
  = (match conn_Write env c ctx db table (outgoing props payload) format
             mappingRef requestID with
     | Some err => (None, Some (errors_E OpIngestStream KClientArgs err))
     | None => (Some (set_Status (putProps newResult props) "Success"), None)
     end,
     snd (log (EvWrite c db table (outgoing props payload) format mappingRef
                 requestID) s)).
Proof.
  intros format mappingRef requestID. unfold streamImpl. run_calls.
  fold format mappingRef requestID.
  now destruct (conn_Write env c ctx db table (outgoing props payload) format
                  mappingRef requestID).
Qed.


(** *** getStreamConn, one caller at a time *)

Lemma getStreamConn_hit (i : Ingestion) (s : State) (c : Conn) :
  streamConn i = Some c ->
  getStreamConn env i s
  = ((i, (Some c, None)),
     {| manager := manager s; managers_made := managers_made s;
        conns_made := conns_made s; uuids_made := uuids_made s;
        trace := trace s ++ [EvLock connMu] ++ [EvUnlock connMu] |}).
Proof.
  intros H. unfold getStreamConn. rewrite H. run_calls.
  now rewrite <- app_assoc.
Qed.

Lemma getStreamConn_miss (i : Ingestion) (s : State) :
  streamConn i = None ->
  conn_New_err env (Endpoint (client i)) (Auth (client i)) = None ->
  let sc := {| conn_id := conns_made s;
               conn_endpoint := Endpoint (client i);
               conn_auth := Auth (client i) |} in
  getStreamConn env i s
  = ((set_streamConn i (Some sc), (Some sc, None)),
     {| manager := manager s; managers_made := managers_made s;
        conns_made := S (conns_made s); uuids_made := uuids_made s;
        trace := trace s ++ [EvLock connMu]
                   ++ [EvConnNew (Endpoint (client i)) (Auth (client i))]
                   ++ [EvUnlock connMu] |}).
Proof.
  intros H Hok sc. unfold getStreamConn. rewrite H. run_calls. rewrite Hok.
  run_calls. now rewrite <- !app_assoc.
Qed.

Lemma getStreamConn_failure (i : Ingestion) (s : State) (err : error) :
  streamConn i = None ->
  conn_New_err env (Endpoint (client i)) (Auth (client i)) = Some err ->
  getStreamConn env i s
  = ((i, (None, Some err)),
     {| manager := manager s; managers_made := managers_made s;
        conns_made := conns_made s; uuids_made := uuids_made s;
        trace := trace s ++ [EvLock connMu]
                   ++ [EvConnNew (Endpoint (client i)) (Auth (client i))]
                   ++ [EvUnlock connMu] |}).
Proof.
  intros H Herr. unfold getStreamConn. rewrite H. run_calls. rewrite Herr.
  run_calls. now rewrite <- !app_assoc.
Qed.

(** A nil connection never comes with a nil error, and the connection handed
    back is the one the orchestrator holds from then on. *)
Lemma getStreamConn_shape (i : Ingestion) (s : State) :
  match fst (getStreamConn env i s) with
  | (i', (Some c, None)) =>
      streamConn i' = Some c /\ db i' = db i /\ table i' = table i
      /\ client i' = client i
  | (i', (None, Some _)) => i' = i /\ streamConn i = None
  | _ => False
  end.
Proof.
  destruct (streamConn i) as [c|] eqn:Hc.
  - rewrite (getStreamConn_hit i s c Hc). cbn. auto.
  - destruct (conn_New_err env (Endpoint (client i)) (Auth (client i)))
      as [err|] eqn:Hn.
    + rewrite (getStreamConn_failure i s err Hc Hn). cbn. auto.
    + rewrite (getStreamConn_miss i s Hc Hn). cbn. auto.
Qed.

Lemma getStreamConn_no_write (i : Ingestion) (s : State) :
  writes (trace (snd (getStreamConn env i s))) = writes (trace s).
Proof.
  destruct (streamConn i) as [c|] eqn:Hc.
  - rewrite (getStreamConn_hit i s c Hc). cbn [snd trace].
    rewrite writes_app. cbn. now rewrite app_nil_r.
  - destruct (conn_New_err env (Endpoint (client i)) (Auth (client i)))
      as [err|] eqn:Hn.
    + rewrite (getStreamConn_failure i s err Hc Hn). cbn [snd trace].
      rewrite writes_app. cbn. now rewrite app_nil_r.
    + rewrite (getStreamConn_miss i s Hc Hn). cbn [snd trace].
      rewrite writes_app. cbn. now rewrite app_nil_r.
Qed.

(** *** Stream *)

Lemma Stream_with_conn (i i' : Ingestion) (ctx : Context)
  (payload : list Byte.byte) (format : properties.DataFormat)
  (mappingName : string) (s : State) (c : Conn) :
  fst (getStreamConn env i s) = (i', (Some c, None)) ->
  Stream env i ctx payload format mappingName s
  = ((i',
      match conn_Write env c ctx (db i') (table i') (bytes_NewReader payload)
              format mappingName "" with
      | Some err => Some (errors_E OpIngestStream KClientArgs err)
      | None => None
      end),
     snd (log (EvWrite c (db i') (table i') (bytes_NewReader payload) format
                 mappingName "") (snd (getStreamConn env i s)))).
Proof.
  intros H. unfold Stream. unfold bind at 1.
  destruct (getStreamConn env i s) as [[j [oc oe]] s1]. cbn [fst snd] in *.
  injection H as -> -> ->. unfold bind. rewrite streamImpl_run.
  cbn [properties.ShouldCompress properties.Streaming_ properties.zero_Streaming
       properties.Format properties.IngestionMappingRef properties.Additional_
       properties.Ingestion_ properties.ClientRequestId outgoing].
  now destruct (conn_Write env c ctx (db i') (table i')
                  (bytes_NewReader payload) format mappingName "").
Qed.

Lemma Stream_without_conn (i : Ingestion) (ctx : Context)
  (payload : list Byte.byte) (format : properties.DataFormat)
  (mappingName : string) (s : State) (err : error) :
  fst (getStreamConn env i s) = (i, (None, Some err)) ->
  Stream env i ctx payload format mappingName s
  = ((i, Some err), snd (getStreamConn env i s)).
Proof.
  intros H. unfold Stream. unfold bind at 1.
  destruct (getStreamConn env i s) as [[j [oc oe]] s1]. cbn [fst snd] in *.
  injection H as -> -> ->. reflexivity.
Qed.

End Streaming.

(** ** Payload sizes *)

Lemma size_acc (b : list Byte.byte) (a : N) :
  fold_left (fun n _ => N.succ n) b a = (a + size b)%N.
Proof.
  revert a. induction b as [|x b IH]; intros a; unfold size; cbn [fold_left].
  - now rewrite N.add_0_r.
  - rewrite (IH (N.succ a)), (IH (N.succ 0%N)). lia.
Qed.

Lemma size_cons (x : Byte.byte) (b : list Byte.byte) :
  size (x :: b) = N.succ (size b).
Proof. unfold size at 1. cbn [fold_left]. rewrite size_acc. lia. Qed.

Lemma size_filled (n : N) (x : Byte.byte) : size (filled n x) = n.
Proof.
  unfold filled. induction n as [|n IH] using N.peano_ind; [reflexivity|].
  now rewrite N.iter_succ, size_cons, IH.
Qed.

(** ** The streaming path *)

(** C7: streaming FromFile on a path classified as non-local returns the
    argument error at once: the classification is the only call it makes, so
    no option is applied, no file is opened and nothing is written. *)
Theorem streaming_FromFile_rejects_remote (env : Env) (i : StreamingIngestion)
  (ctx : Context) (fPath : string) (options : list FileOption) (s : State) :
  filesystem_IsLocalPath env fPath = (false, None) ->
  StreamingIngestion_FromFile env i ctx fPath options s
  = ((None, Some (errors_ES OpFileIngest KClientArgs
                    "blobstore paths are not supported for streaming")),
     {| manager := manager s; managers_made := managers_made s;
        conns_made := conns_made s; uuids_made := uuids_made s;
        trace := trace s ++ [EvIsLocalPath fPath] |}).
Proof.
  intros H. unfold StreamingIngestion_FromFile. run_calls. rewrite H.
  reflexivity.
Qed.

Lemma streaming_FromFile_rejects_remote_witness :
  StreamingIngestion_FromFile sample_env sample_Streaming background
    "https://account.blob.core.windows.net/c/data.csv"
    [FileFormat properties.CSV] init_State
  = ((None, Some blobstore_not_supported),
     {| manager := None; managers_made := 0; conns_made := 0; uuids_made := 0;
        trace :=
          [EvIsLocalPath
             "https://account.blob.core.windows.net/c/data.csv"] |}).
Proof.
  exact (streaming_FromFile_rejects_remote sample_env sample_Streaming
           background "https://account.blob.core.windows.net/c/data.csv"
           [FileFormat properties.CSV] init_State eq_refl).
Defined.

(** C8: when the connection write succeeds, streamImpl returns a non-nil
    Result with a nil error; the status of its record is "Success" at once,
    its properties snapshot is the property set passed in, and the write is
    the only call made (no status is polled). *)
Theorem streamImpl_success (env : Env) (db table : string) (c : Conn)
  (ctx : Context) (payload : Reader) (props : properties.All) (s : State) :
  conn_Write env c ctx db table (outgoing props payload)
    (properties.Format (properties.Additional_ (properties.Ingestion_ props)))
    (properties.IngestionMappingRef
       (properties.Additional_ (properties.Ingestion_ props)))
    (properties.ClientRequestId (properties.Streaming_ props)) = None ->
  exists result,
    fst (streamImpl env db table c ctx payload props s) = (Some result, None)
    /\ Status (record result) = "Success"
    /\ props_snapshot result = props
    /\ trace (snd (streamImpl env db table c ctx payload props s))
       = trace s
         ++ [EvWrite c db table (outgoing props payload)
               (properties.Format
                  (properties.Additional_ (properties.Ingestion_ props)))
               (properties.IngestionMappingRef
                  (properties.Additional_ (properties.Ingestion_ props)))
               (properties.ClientRequestId (properties.Streaming_ props))].
Proof.
  intros H. rewrite streamImpl_run. cbn zeta. rewrite H.
  eexists. repeat split.
Qed.

Lemma streamImpl_success_witness :
  exists result,
    fst (streamImpl sample_env "db" "events" conn_a background
           (bytes_NewReader []) (set_Format properties.zero_All properties.CSV)
           init_State) = (Some result, None)
    /\ Status (record result) = "Success"
    /\ props_snapshot result = set_Format properties.zero_All properties.CSV.
Proof.
  destruct (streamImpl_success sample_env "db" "events" conn_a background
              (bytes_NewReader [])
              (set_Format properties.zero_All properties.CSV) init_State
              eq_refl) as (result & H1 & H2 & H3 & _).
  exists result. auto.
Defined.

(** C9: Stream leaves ShouldCompress at false, so the gzip branch of
    streamImpl is not taken: whatever Stream writes over the connection is
    the payload itself, under no gzip encoder, and when a connection is at
    hand it writes exactly that once. *)
Theorem Stream_writes_uncompressed (env : Env) (i : Ingestion) (ctx : Context)
  (payload : list Byte.byte) (format : properties.DataFormat)
  (mappingName : string) (s : State) :
  let sent :=
    match fst (getStreamConn env i s) with
    | (_, (Some _, None)) => [bytes_NewReader payload]
    | _ => []
    end in
  writes (trace (snd (Stream env i ctx payload format mappingName s)))
  = writes (trace s) ++ sent
  /\ Forall (fun r => compressed r = false /\ source_bytes r = payload) sent.
Proof.
  intros sent. subst sent.
  pose proof (getStreamConn_shape env i s) as Hshape.
  destruct (fst (getStreamConn env i s)) as [i' [[c|] [err|]]] eqn:Hg;
    try contradiction.
  - rewrite (Stream_with_conn env i i' ctx payload format mappingName s c Hg).
    cbn [snd log trace]. rewrite writes_app, getStreamConn_no_write.
    split; [reflexivity|]. repeat constructor.
  - destruct Hshape as [-> _].
    rewrite (Stream_without_conn env i ctx payload format mappingName s err Hg).
    cbn [snd]. rewrite getStreamConn_no_write, app_nil_r.
    split; [reflexivity|constructor].
Qed.

(** C6 (amended): the client does not look at the size of the payload.  Once
    a connection is at hand, Stream hands every payload, whatever its size,
    to one connection write and succeeds exactly when that write succeeds;
    an error of the write reaches the caller wrapped by errors.E under
    OpIngestStream and KClientArgs, with the error of the write as its
    cause.  Against a backend that rejects payloads of 4 MiB or more, Stream
    therefore succeeds exactly for payloads under 4 MiB. *)
Theorem Stream_forwards_every_payload (env : Env) (i i' : Ingestion)
  (ctx : Context) (payload : list Byte.byte) (format : properties.DataFormat)
  (mappingName : string) (s : State) (c : Conn) :
  fst (getStreamConn env i s) = (i', (Some c, None)) ->
  let r := Stream env i ctx payload format mappingName s in
  let verdict :=
    conn_Write env c ctx (db i) (table i) (bytes_NewReader payload) format
      mappingName "" in
  writes (trace (snd r)) = writes (trace s) ++ [bytes_NewReader payload]
  /\ (snd (fst r) = None <-> verdict = None)
  /\ (forall err, verdict = Some err ->
        snd (fst r) = Some (errors_E OpIngestStream KClientArgs err)
        /\ cause (errors_E OpIngestStream KClientArgs err) = err)
  /\ (conn_Write env = backend_Write ->
        (snd (fst r) = None <-> (size payload < ceiling)%N)).
Proof.
  intros Hg r verdict. subst r verdict.
  pose proof (getStreamConn_shape env i s) as Hshape. rewrite Hg in Hshape.
  destruct Hshape as (_ & Hdb & Htable & _).
  rewrite (Stream_with_conn env i i' ctx payload format mappingName s c Hg).
  cbn [fst snd log trace]. rewrite Hdb, Htable.
  split; [|split; [|split]].
  - now rewrite writes_app, getStreamConn_no_write.
  - destruct (conn_Write env c ctx (db i) (table i) (bytes_NewReader payload)
                format mappingName ""); split; congruence.
  - intros err ->. split; reflexivity.
  - intros ->. unfold backend_Write. cbn [source_bytes].
    destruct (N.leb_spec ceiling (size payload)); split; intros; try lia;
      congruence.
Qed.

Lemma Stream_forwards_every_payload_witness :
  snd (fst (Stream sample_env sample_Ingestion background
              (filled 3 Byte.x41) properties.CSV "" init_State)) = None.
Proof.
  destruct (Stream_forwards_every_payload sample_env sample_Ingestion
              (set_streamConn sample_Ingestion (Some conn_a)) background
              (filled 3 Byte.x41) properties.CSV "" init_State conn_a eq_refl)
    as (_ & _ & _ & H).
  apply (H eq_refl). rewrite size_filled. reflexivity.
Defined.

(** C6, as stated, fails: the rejection of a payload of exactly 4 MiB does
    not reach the caller as the backend gave it, but wrapped in a new error
    of kind KClientArgs. *)
Lemma Stream_rejection_is_wrapped :
  snd (fst (Stream sample_env sample_Ingestion background
              (filled ceiling Byte.x00) properties.CSV "" init_State))
  = Some (errors_E OpIngestStream KClientArgs payload_too_large)
  /\ errors_E OpIngestStream KClientArgs payload_too_large
     <> payload_too_large
  /\ conn_Write sample_env conn_a background "db" "events"
       (bytes_NewReader (filled ceiling Byte.x00)) properties.CSV "" ""
     = Some payload_too_large.
Proof.
  assert (Hw : conn_Write sample_env conn_a background "db" "events"
                 (bytes_NewReader (filled ceiling Byte.x00)) properties.CSV
                 "" "" = Some payload_too_large).
  { cbn [conn_Write sample_env]. unfold backend_Write. cbn [source_bytes].
    rewrite size_filled. reflexivity. }
  split; [|split; [discriminate|exact Hw]].
  rewrite (Stream_with_conn sample_env sample_Ingestion
             (set_streamConn sample_Ingestion (Some conn_a)) background
             (filled ceiling Byte.x00) properties.CSV "" init_State conn_a
             eq_refl).
  cbn [fst snd]. change (db (set_streamConn sample_Ingestion (Some conn_a)))
    with "db". change (table (set_streamConn sample_Ingestion (Some conn_a)))
    with "events". now rewrite Hw.
Qed.

(** What streaming FromFile writes for a local file it can open, with no
    option: the file under a gzip encoder exactly when compression was
    detected in it. *)
Lemma streaming_FromFile_written (env : Env) (j : StreamingIngestion)
  (ctx : Context) (fPath : string) (content : list Byte.byte) (s : State) :
  filesystem_IsLocalPath env fPath = (true, None) ->
  os_Open env fPath = inr content ->
  writes (trace (snd (StreamingIngestion_FromFile env j ctx fPath [] s)))
  = writes (trace s)
    ++ [if detected (filesystem_CompressionDiscovery env fPath)
        then gzip_Reset (os_File fPath content)
        else os_File fPath content].
Proof.
  intros Hl Ho. unfold StreamingIngestion_FromFile. run_calls.
  rewrite Hl. cbn [negb run_options]. run_calls. rewrite Ho.
  rewrite streamImpl_run. cbn [snd log trace]. rewrite !writes_app.
  cbn [writes]. rewrite !app_nil_r.
  now destruct (detected (filesystem_CompressionDiscovery env fPath)).
Qed.

(** C2, on the code: streaming FromFile turns ShouldCompress on for a file in
    which gzip compression was detected, which is then written under a
    second gzip encoder, and leaves it off for a file with no compression,
    which is written as it is; FromReader marks its payload for
    compression. *)
Theorem streaming_FromFile_compression_inverted :
  let gz :=
    StreamingIngestion_FromFile sample_env sample_Streaming background
      "data.csv.gz" [] init_State in
  let plain :=
    StreamingIngestion_FromFile sample_env sample_Streaming background
      "data.csv" [] init_State in
  let reader :=
    StreamingIngestion_FromReader sample_env sample_Streaming background
      (caller_Reader [] false) [] init_State in
  let marked (r : option Result * option error) :=
    option_map
      (fun x => properties.ShouldCompress
                  (properties.Streaming_ (props_snapshot x))) (fst r) in
  filesystem_CompressionDiscovery sample_env "data.csv.gz" = properties.GZIP
  /\ marked (fst gz) = Some true
  /\ writes (trace (snd gz)) = [gzip_Reset (os_File "data.csv.gz" [])]
  /\ filesystem_CompressionDiscovery sample_env "data.csv" = properties.CTNone
  /\ marked (fst plain) = Some false
  /\ writes (trace (snd plain)) = [os_File "data.csv" []]
  /\ marked (fst reader) = Some true
  /\ writes (trace (snd reader))
     = [gzip_Reset (ioutil_NopCloser (caller_Reader [] false))].
Proof. repeat split. Qed.

(** ** The queued path *)

Lemma bind_run {A B : Type} (c : M A) (k : A -> M B) (s : State) :
  bind c k s = k (fst (c s)) (snd (c s)).
Proof. unfold bind. now destruct (c s). Qed.

Lemma quiet_refl (s : State) : quiet s s.
Proof. exists []. split; [apply extends_refl|]. now split. Qed.

Lemma quiet_trans (s1 s2 s3 : State) :
  quiet s1 s2 -> quiet s2 s3 -> quiet s1 s3.
Proof.
  intros (l1 & E1 & U1 & W1) (l2 & E2 & U2 & W2). exists (l1 ++ l2).
  split; [eapply extends_trans; eauto|].
  now rewrite uploads_app, writes_app, U1, U2, W1, W2.
Qed.

Lemma quiet_log (e : Event) (s : State) :
  is_upload e = false -> writes [e] = [] -> quiet s (snd (log e s)).
Proof.
  intros Hu Hw. exists [e]. split; [apply extends_log|]. split; [|exact Hw].
  unfold uploads. cbn. now rewrite Hu.
Qed.

Lemma quiet_uploads (s s' : State) :
  quiet s s' -> uploads (trace s') = uploads (trace s).
Proof.
  intros (l & [T _ _ _] & U & _). now rewrite T, uploads_app, U, app_nil_r.
Qed.

Lemma quiet_run_options (options : list FileOption) (n : nat)
  (props : properties.All) (isFile isBlob isReader queued streaming : bool)
  (s : State) :
  quiet s (snd (run_options options n props isFile isBlob isReader queued
                  streaming s)).
Proof.
  destruct (run_options_extends options n props isFile isBlob isReader queued
              streaming s) as (l & E & _ & R).
  exists l. split; [exact E|]. split.
  - now apply is_Run_no_upload.
  - now apply is_Run_no_write.
Qed.

Section Queued.

Variable env : Env.

Lemma quiet_uuid_New (s : State) : quiet s (snd (uuid_New env s)).
Proof. exists [EvUuidNew]. repeat split. Qed.

Lemma assign_ID_facts (props : properties.All) (s : State) :
  quiet s (snd (assign_ID env props s))
  /\ properties.Ingestion_ (fst (assign_ID env props s))
     = properties.Ingestion_ props
  /\ fst (assign_ID env props s)
     = (if uuid.eqb (properties.ID (properties.Source props)) uuid.Nil
        then properties.set_ID props (uuid.New (rand_Read env (uuids_made s)))
        else props)
  /\ properties.ID (properties.Source (fst (assign_ID env props s)))
     <> uuid.Nil.
Proof.
  unfold assign_ID.
  destruct (uuid.eqb (properties.ID (properties.Source props)) uuid.Nil)
    eqn:E.
  - rewrite bind_run. cbn [ret fst snd]. split; [apply quiet_uuid_New|].
    split; [reflexivity|]. split; [reflexivity|]. apply New_not_Nil.
  - cbn [ret fst snd]. split; [apply quiet_refl|]. split; [reflexivity|].
    split; [reflexivity|]. unfold uuid.eqb in E. now apply Z.eqb_neq.
Qed.

(** prepForIngestion stages nothing and writes nothing; it returns either a
    Result holding the property set it also returns, or the zero property
    set with an error. *)
Lemma prepForIngestion_facts (i : Ingestion) (ctx : Context)
  (options : list FileOption) (isFile isBlob isReader : bool) (s : State) :
  quiet s (snd (prepForIngestion env i ctx options isFile isBlob isReader s))
  /\ match fst (prepForIngestion env i ctx options isFile isBlob isReader s)
     with
     | (Some result, props, None) =>
         props_snapshot result = props
         /\ (Forall keeps_Format options ->
             properties.Format (properties.Additional_
               (properties.Ingestion_ props)) = properties.DFUnknown)
     | (None, props, Some _) => props = properties.zero_All
     | _ => False
     end.
Proof.
  destruct (prepForIngestion env i ctx options isFile isBlob isReader s)
    as [r s'] eqn:E.
  unfold prepForIngestion in E. rewrite bind_run in E.
  change (AuthContext env (mgr i) ctx s)
    with (mgr_AuthContext env (mgr i) ctx, snd (log (EvAuthContext (mgr i)) s))
    in E.
  cbn [fst snd] in E.
  assert (X1 : quiet s (snd (log (EvAuthContext (mgr i)) s)))
    by now apply quiet_log.
  set (s1 := snd (log (EvAuthContext (mgr i)) s)) in *.
  destruct (mgr_AuthContext env (mgr i) ctx) as [auth [err|]].
  { injection E as <- <-. cbn [fst snd]. auto. }
  rewrite bind_run in E.
  pose proof (quiet_run_options options 0 (newProp i auth) isFile isBlob
                isReader true false s1) as X2.
  pose proof (fun HF => run_options_keeps_Format options HF 0 (newProp i auth)
                isFile isBlob isReader true false s1) as F2.
  destruct (run_options options 0 (newProp i auth) isFile isBlob isReader
              true false s1) as [[props [err|]] s2]; cbn [fst snd] in *.
  { injection E as <- <-. cbn [fst snd]. split; [|reflexivity].
    eapply quiet_trans; eauto. }
  assert (X12 : quiet s s2) by (eapply quiet_trans; eauto).
  destruct (properties.level_is_None
              (properties.ReportLevel (properties.Ingestion_ props)));
    cbn [negb] in E.
  { injection E as <- <-. cbn [fst snd]. auto. }
  rewrite bind_run in E.
  destruct (assign_ID_facts props s2) as (X3 & I3 & _ & _).
  destruct (assign_ID env props s2) as [props3 s3]; cbn [fst snd] in *.
  assert (X13 : quiet s s3) by (eapply quiet_trans; eauto).
  assert (F3 : Forall keeps_Format options ->
               properties.Format (properties.Additional_
                 (properties.Ingestion_ props3)) = properties.DFUnknown)
    by (intros HF; rewrite I3; exact (F2 HF)).
  assert (X4 : quiet s3 (snd (log (EvResources (mgr i)) s3)))
    by now apply quiet_log.
  assert (X14 : quiet s (snd (log (EvResources (mgr i)) s3)))
    by (eapply quiet_trans; eauto).
  destruct (properties.ReportMethod (properties.Ingestion_ props3)).
  - injection E as <- <-. cbn [fst snd]. auto.
  - rewrite bind_run in E.
    change (Resources_ env (mgr i) s3)
      with (mgr_Resources env (mgr i), snd (log (EvResources (mgr i)) s3))
      in E.
    cbn [fst snd] in E.
    destruct (mgr_Resources env (mgr i)) as [rs [err|]];
      [|destruct (Tables rs) as [|t0 ts]]; injection E as <- <-;
      cbn [fst snd]; auto.
  - rewrite bind_run in E.
    change (Resources_ env (mgr i) s3)
      with (mgr_Resources env (mgr i), snd (log (EvResources (mgr i)) s3))
      in E.
    cbn [fst snd] in E.
    destruct (mgr_Resources env (mgr i)) as [rs [err|]];
      [|destruct (Tables rs) as [|t0 ts]]; injection E as <- <-;
      cbn [fst snd]; auto.
Qed.


End Queued.

(** C3: in queued ingestion, when the options leave a ReportLevel other than
    None, prepForIngestion gives Source.ID a new, non-nil UUID if it is unset
    (and keeps a set one).  When the report method names a status table and
    the Resource Manager exposes no status table, it fails with the
    configuration error; when the Manager exposes one, TableEntryRef gets
    the URL of the first as connection string, the correlation id as
    PartitionKey and the nil UUID as RowKey. *)
Theorem prepForIngestion_reporting (env : Env) (i : Ingestion) (ctx : Context)
  (options : list FileOption) (isFile isBlob isReader : bool) (s s2 : State)
  (auth : string) (props : properties.All) :
  mgr_AuthContext env (mgr i) ctx = (auth, None) ->
  run_options options 0 (newProp i auth) isFile isBlob isReader true false
    (snd (AuthContext env (mgr i) ctx s)) = ((props, None), s2) ->
  properties.ReportLevel (properties.Ingestion_ props) <> properties.None ->
  let r := fst (prepForIngestion env i ctx options isFile isBlob isReader s) in
  let unset := uuid.eqb (properties.ID (properties.Source props)) uuid.Nil in
  let id :=
    if unset then uuid.New (rand_Read env (uuids_made s2))
    else properties.ID (properties.Source props) in
  id <> uuid.Nil
  /\ (properties.ReportMethod (properties.Ingestion_ props)
      = properties.ReportStatusToQueue ->
      exists result props',
        r = (Some result, props', None)
        /\ props_snapshot result = props'
        /\ properties.ID (properties.Source props') = id
        /\ properties.TableEntryRef (properties.Ingestion_ props')
           = properties.TableEntryRef (properties.Ingestion_ props))
  /\ (properties.ReportMethod (properties.Ingestion_ props)
      <> properties.ReportStatusToQueue ->
      forall rs, mgr_Resources env (mgr i) = (rs, None) ->
      (Tables rs = [] -> r = (None, properties.zero_All, Some no_status_table))
      /\ (forall t0 ts, Tables rs = t0 :: ts ->
          exists result props',
            r = (Some result, props', None)
            /\ props_snapshot result = props'
            /\ properties.ID (properties.Source props') = id
            /\ properties.TableEntryRef (properties.Ingestion_ props')
               = {| properties.TableConnectionString := URL_String t0;
                    properties.PartitionKey := uuid.String id;
                    properties.RowKey :=
                      "00000000-0000-0000-0000-000000000000" |})).
Proof.
  intros Ha Ho HL r unset id.
  assert (E : prepForIngestion env i ctx options isFile isBlob isReader s
              = (r, snd (prepForIngestion env i ctx options isFile isBlob
                           isReader s)))
    by (subst r; apply surjective_pairing).
  unfold prepForIngestion in E at 1. rewrite bind_run in E.
  replace (fst (AuthContext env (mgr i) ctx s)) with (auth, @None error) in E
    by (cbn; now rewrite Ha).
  cbn iota in E. rewrite bind_run, Ho in E. cbn [fst snd] in E.
  destruct (properties.ReportLevel (properties.Ingestion_ props)) eqn:EL;
    try (exfalso; apply HL; reflexivity);
    cbn [negb properties.level_is_None] in E.
  all: rewrite bind_run in E.
  all: destruct (assign_ID_facts env props s2) as (_ & I3 & V3 & N3).
  all: fold unset in V3.
  all: assert (Hid : properties.ID (properties.Source
                       (fst (assign_ID env props s2))) = id)
         by (rewrite V3; subst id; now destruct unset).
  all: split; [now rewrite <- Hid|].
  all: rewrite I3 in E.
  all: split.
  all: try (intros HQ; rewrite HQ in E; injection E as E _;
            eexists; eexists; split; [symmetry; exact E|];
            split; [reflexivity|]; split; [exact Hid|]; now rewrite I3).
  all: intros HT rs Hrs.
  all: destruct (properties.ReportMethod (properties.Ingestion_ props));
         try (exfalso; apply HT; reflexivity).
  all: rewrite bind_run in E.
  all: replace (fst (Resources_ env (mgr i) (snd (assign_ID env props s2))))
         with (rs, @None error) in E by (cbn; now rewrite Hrs).
  all: cbn iota in E.
  all: split; [intros HE; rewrite HE in E; injection E as E _; now symmetry|].
  all: intros t0 ts HE; rewrite HE in E; injection E as E _.
  all: eexists; eexists; split; [symmetry; exact E|].
  all: split; [reflexivity|]; split; [exact Hid|].
  all: cbn; now rewrite Hid.
Qed.

Lemma prepForIngestion_reporting_witness :
  (exists result props',
     fst (prepForIngestion sample_env sample_Ingestion background
            [ReportResultToTable] true false false init_State)
     = (Some result, props', None)
     /\ props_snapshot result = props'
     /\ properties.ID (properties.Source props') = uuid.New 0
     /\ properties.TableEntryRef (properties.Ingestion_ props')
        = {| properties.TableConnectionString := URL_String status_table;
             properties.PartitionKey :=
               "00000000-0000-4000-8000-000000000000";
             properties.RowKey := "00000000-0000-0000-0000-000000000000" |})
  /\ fst (prepForIngestion no_table_env sample_Ingestion background
            [ReportResultToTable] true false false init_State)
     = (None, properties.zero_All, Some no_status_table).
Proof.
  split.
  - destruct (prepForIngestion_reporting sample_env sample_Ingestion
                background [ReportResultToTable] true false false init_State
                _ "token" _ eq_refl eq_refl) as (_ & _ & H).
    + discriminate.
    + destruct (H ltac:(discriminate) sample_Resources eq_refl) as [_ H'].
      exact (H' status_table [] eq_refl).
  - destruct (prepForIngestion_reporting no_table_env sample_Ingestion
                background [ReportResultToTable] true false false init_State
                _ "token" _ eq_refl eq_refl) as (_ & _ & H).
    + discriminate.
    + destruct (H ltac:(discriminate) _ eq_refl) as [H' _].
      exact (H' eq_refl).
Defined.

(** C4 (amended): queued FromReader with options that supply no format
    fails, for every reader, with a nil Result and without any staging call;
    its error is the error of prepForIngestion when the preparation fails
    (the auth context, an option, the status-table lookup) and otherwise the
    argument error that asks for FileFormat().  When prepForIngestion hands
    back a property set with a format, FromReader makes exactly one staging
    call, on the reader and that property set; when staging succeeds the
    Result records the staged path, and when it fails the Result is nil and
    the error is that of the staging. *)
Theorem queued_FromReader_format (env : Env) (i : Ingestion) (ctx : Context)
  (reader : Reader) (options : list FileOption) (s : State) :
  let r := Ingestion_FromReader env i ctx reader options s in
  let p := prepForIngestion env i ctx options false false true s in
  (Forall keeps_Format options ->
     fst r
     = (None,
        Some (match snd (fst p) with
              | Some err => err
              | None => missing_format
              end))
     /\ snd (fst r) <> None
     /\ uploads (trace (snd r)) = uploads (trace s)
     /\ trace (snd r) = trace (snd p)
     /\ (snd (fst p) = None -> snd (fst r) = Some missing_format))
  /\ (forall result props,
        fst p = (Some result, props, None) ->
        properties.Format (properties.Additional_
          (properties.Ingestion_ props)) <> properties.DFUnknown ->
        trace (snd r) = trace (snd p) ++ [EvReader reader props]
        /\ uploads (trace (snd r))
           = uploads (trace s) ++ [EvReader reader props]
        /\ (forall path,
              fs_Reader env (fs i) ctx reader props = (path, None) ->
              exists staged,
                fst r = (Some staged, None)
                /\ IngestionSourcePath (record staged) = path
                /\ props_snapshot staged = props)
        /\ (forall path err,
              fs_Reader env (fs i) ctx reader props = (path, Some err) ->
              fst r = (None, Some err))).
Proof.
  cbv zeta.
  destruct (prepForIngestion_facts env i ctx options false false true s)
    as [Q F].
  remember (Ingestion_FromReader env i ctx reader options s) as r eqn:E.
  unfold Ingestion_FromReader in E. rewrite bind_run in E.
  destruct (prepForIngestion env i ctx options false false true s)
    as [[[res props] err] s1]; cbn [fst snd] in *.
  split.
  - intros HF. destruct err as [err|].
    + subst r. cbn. repeat split; try discriminate.
      now apply quiet_uploads.
    + destruct res as [res|]; [|contradiction]. destruct F as [_ F].
      rewrite (F HF) in E. cbn in E. subst r. cbn.
      repeat split; try discriminate. now apply quiet_uploads.
  - intros result props' Hp HD. injection Hp as -> -> ->.
    destruct F as [F _].
    destruct (properties.Format (properties.Additional_
                (properties.Ingestion_ props'))) eqn:EF;
      try (exfalso; apply HD; reflexivity);
      cbn [properties.format_is_DFUnknown] in E.
    all: rewrite bind_run in E.
    all: change (Reader_ env (fs i) ctx reader props' s1)
           with (fs_Reader env (fs i) ctx reader props',
                 snd (log (EvReader reader props') s1)) in E.
    all: cbn [fst snd] in E.
    all: assert (T : trace (snd r) = trace s1 ++ [EvReader reader props'])
           by (subst r;
               destruct (fs_Reader env (fs i) ctx reader props')
                 as [path [e|]]; reflexivity).
    all: split; [exact T|].
    all: split; [rewrite T, uploads_app, (quiet_uploads s s1 Q);
                 reflexivity|].
    all: split; [intros path Hr; rewrite Hr in E; subst r; cbn;
                 eexists; split; [reflexivity|]; split; [reflexivity|exact F]
                |intros path e Hr; rewrite Hr in E; subst r; reflexivity].
Qed.

Lemma queued_FromReader_format_witness :
  fst (Ingestion_FromReader sample_env sample_Ingestion background
         (caller_Reader [] false) [ReportResultToTable] init_State)
  = (None, Some missing_format)
  /\ fst (Ingestion_FromReader no_table_env sample_Ingestion background
            (caller_Reader [] false) [ReportResultToTable] init_State)
     = (None, Some no_status_table)
  /\ uploads (trace (snd (Ingestion_FromReader sample_env sample_Ingestion
                            background (caller_Reader [] false)
                            [ReportResultToTable] init_State))) = []
  /\ exists staged,
       fst (Ingestion_FromReader sample_env sample_Ingestion background
              (caller_Reader [] false) [FileFormat properties.CSV]
              init_State) = (Some staged, None)
       /\ IngestionSourcePath (record staged)
          = "https://account.blob/staged.gz".
Proof.
  assert (K : Forall keeps_Format [ReportResultToTable])
    by (repeat constructor).
  destruct (queued_FromReader_format sample_env sample_Ingestion background
              (caller_Reader [] false) [ReportResultToTable] init_State)
    as [H _].
  destruct (H K) as (H1 & _ & H3 & _).
  destruct (queued_FromReader_format no_table_env sample_Ingestion background
              (caller_Reader [] false) [ReportResultToTable] init_State)
    as [N _].
  destruct (N K) as (N1 & _).
  split; [exact H1|]. split; [exact N1|]. split; [exact H3|].
  destruct (queued_FromReader_format sample_env sample_Ingestion background
              (caller_Reader [] false) [FileFormat properties.CSV]
              init_State) as [_ G].
  destruct (G _ _ eq_refl ltac:(discriminate)) as (_ & _ & G3 & _).
  destruct (G3 _ eq_refl) as (staged & S1 & S2 & _).
  exists staged. split; [exact S1|exact S2].
Defined.

(** C4, as stated, fails: with an option list that supplies no format, a
    call whose preparation fails returns the error of the preparation, here
    the configuration error for the missing status table, and not the
    argument error. *)
Lemma queued_FromReader_other_error_first :
  Forall keeps_Format [ReportResultToTable]
  /\ fst (Ingestion_FromReader no_table_env sample_Ingestion background
            (caller_Reader [] false) [ReportResultToTable] init_State)
     = (None, Some no_status_table)
  /\ no_status_table <> missing_format.
Proof.
  split; [repeat constructor|]. split; [reflexivity|discriminate].
Qed.

(** ** One of a Result and an error *)

Section ExactlyOne.

Variable env : Env.

Lemma IsLocalPath_run (fPath : string) (s : State) :
  IsLocalPath env fPath s
  = (filesystem_IsLocalPath env fPath, snd (log (EvIsLocalPath fPath) s)).
Proof. reflexivity. Qed.

(** Queued FromFile, once the path is classified and the property set is
    prepared: the staging call decides. *)
Lemma queued_FromFile_run (i : Ingestion) (ctx : Context) (fPath : string)
  (options : list FileOption) (s : State) (local : bool) :
  filesystem_IsLocalPath env fPath = (local, None) ->
  let s1 := snd (log (EvIsLocalPath fPath) s) in
  let p := prepForIngestion env i ctx options local (negb local) false s1 in
  fst (Ingestion_FromFile env i ctx fPath options s)
  = match fst p with
    | (_, _, Some err) => (None, Some err)
    | (None, _, None) => (None, Some nil_dereference)
    | (Some result, props, None) =>
        match (if local then fs_Local env (fs i) ctx fPath props
               else fs_Blob env (fs i) ctx fPath 0 props) with
        | Some err => (None, Some err)
        | None =>
            (Some (putQueued (set_IngestionSourcePath result fPath) (mgr i)),
             None)
        end
    end.
Proof.
  intros Hl s1 p. unfold Ingestion_FromFile. rewrite bind_run, IsLocalPath_run.
  cbn [fst snd]. rewrite Hl. rewrite bind_run. fold s1. fold p.
  destruct p as [[[[result|] props] [err|]] s2]; cbn [fst snd]; try reflexivity.
  rewrite bind_run. destruct local; unfold Local, Blob; rewrite bind_run;
    cbn [ret fst snd].
  - now destruct (fs_Local env (fs i) ctx fPath props).
  - now destruct (fs_Blob env (fs i) ctx fPath 0 props).
Qed.







End ExactlyOne.



(** ** Concurrent callers of getStreamConn *)

Section PoolFacts.

Variables Sh PC : Type.

Lemma upd_same (pool : nat -> PC) (t : nat) (p : PC) : upd PC pool t p t = p.
Proof. unfold upd. now rewrite Nat.eqb_refl. Qed.

Lemma upd_other (pool : nat -> PC) (t u : nat) (p : PC) :
  u <> t -> upd PC pool t p u = pool u.
Proof. intros H. unfold upd. now apply Nat.eqb_neq in H as ->. Qed.

(** A property that holds at the start and that every step keeps holds
    after every schedule. *)
Lemma run_schedule_invariant (step : nat -> Sh -> PC -> option (Sh * PC))
  (P : Sh * (nat -> PC) -> Prop) :
  (forall t st, P st -> P (pool_step Sh PC step t st)) ->
  forall sched st, P st -> P (run_schedule Sh PC step sched st).
Proof.
  intros Hstep. induction sched as [|t rest IH]; intros st H; [exact H|].
  cbn [run_schedule]. apply IH, Hstep, H.
Qed.

End PoolFacts.

Module ConnProofs.
Import ConnThreads.

Ltac split_thread :=
  match goal with
  | |- context [upd pc ?pool ?t ?p ?u] =>
      destruct (Nat.eq_dec u t) as [->|?];
      [rewrite (upd_same pc pool t p)
      |rewrite (upd_other pc pool t u p) by assumption]
  end.

Lemma creating_critical (p : pc) : creating p = true -> critical p = true.
Proof. now destruct p. Qed.

Lemma Inv_start : Inv start.
Proof.
  split; cbn; auto; try discriminate.
  left. split; [reflexivity|]. intros; discriminate.
Qed.

Lemma held_of_critical (st : Shared * (nat -> pc)) (t : nat) :
  Inv st -> critical (snd st t) = true -> held (fst st) = true.
Proof.
  intros I C. destruct (held (fst st)) eqn:H; [reflexivity|].
  rewrite (inv_free st I H t) in C. discriminate.
Qed.

Lemma Inv_step (new_err : nat -> option error) (cl : Client) (t : nat)
  (st : Shared * (nat -> pc)) :
  Inv st -> Inv (pool_step Shared pc (step new_err cl) t st).
Proof.
  intros HI. destruct st as [sh pool]. unfold pool_step. cbn [fst snd].
  pose proof (inv_free _ HI) as Ifree. pose proof (inv_mutex _ HI) as Imutex.
  pose proof (inv_made _ HI) as Imade. pose proof (inv_result _ HI) as Iresult.
  cbn [fst snd] in Ifree, Imutex, Imade, Iresult.
  destruct (pool t) as [| | |sc|r|r] eqn:Ht; cbn [step].
  - (* Lock *)
    destruct (held sh) eqn:Hh; [exact HI|].
    specialize (Ifree eq_refl).
    split; cbn [fst snd held stored made].
    + discriminate.
    + intros u v. do 2 split_thread; intros Cu Cv; try reflexivity;
        rewrite Ifree in *; discriminate.
    + destruct (stored sh).
      * destruct Imade as [M C]. split; [exact M|]. intros u. split_thread;
          [reflexivity|apply C].
      * destruct Imade as [[M C]|[M (t0 & sc & C)]].
        -- left. split; [exact M|]. intros u sc. split_thread;
             [discriminate|apply C].
        -- right. split; [exact M|]. exists t0, sc.
           rewrite upd_other; [exact C|]. intros ->. rewrite Ht in C.
           discriminate.
    + intros u r. split_thread; [discriminate|]. apply Iresult.
  - (* the check under the mutex *)
    assert (Hh : held sh = true)
      by (apply (held_of_critical (sh, pool) t HI); cbn; now rewrite Ht).
    destruct (stored sh) as [c|] eqn:Hs.
    + split; cbn [fst snd].
      * rewrite Hh. discriminate.
      * intros u v Cu Cv. apply Imutex.
        -- revert Cu. split_thread; [now rewrite Ht|auto].
        -- revert Cv. split_thread; [now rewrite Ht|auto].
      * rewrite Hs. destruct Imade as [M C]. split; [exact M|]. intros u.
        split_thread; [reflexivity|apply C].
      * intros u r. split_thread; [|apply Iresult].
        cbn. intros [= <-]. exact Hs.
    + split; cbn [fst snd].
      * rewrite Hh. discriminate.
      * intros u v Cu Cv. apply Imutex.
        -- revert Cu. split_thread; [now rewrite Ht|auto].
        -- revert Cv. split_thread; [now rewrite Ht|auto].
      * rewrite Hs. destruct Imade as [[M C]|[M (t0 & sc & C)]].
        -- left. split; [exact M|]. intros u sc. split_thread;
             [discriminate|apply C].
        -- right. split; [exact M|]. exists t0, sc.
           rewrite upd_other; [exact C|]. intros ->. rewrite Ht in C.
           discriminate.
      * intros u r. split_thread; [discriminate|apply Iresult].
  - (* conn.New *)
    assert (Hh : held sh = true)
      by (apply (held_of_critical (sh, pool) t HI); cbn; now rewrite Ht).
    assert (Hs : stored sh = None).
    { destruct (stored sh); [|reflexivity]. destruct Imade as [_ C].
      specialize (C t). rewrite Ht in C. discriminate. }
    rewrite Hs in Imade.
    assert (M : made sh = 0 /\ forall u sc, pool u <> AtStore sc).
    { destruct Imade as [M|[_ (t0 & sc & C)]]; [exact M|].
      assert (t0 = t) as ->
        by (apply Imutex; [now rewrite C|now rewrite Ht]).
      rewrite Ht in C. discriminate. }
    destruct M as [M C].
    destruct (new_err (attempts sh)) as [err|].
    + split; cbn [fst snd held stored made].
      * rewrite Hh. discriminate.
      * intros u v Cu Cv. apply Imutex.
        -- revert Cu. split_thread; [now rewrite Ht|auto].
        -- revert Cv. split_thread; [now rewrite Ht|auto].
      * rewrite Hs. left. split; [exact M|]. intros u sc. split_thread;
          [discriminate|apply C].
      * intros u r. split_thread; [|apply Iresult].
        cbn. intros [= <-]. exact I.
    + split; cbn [fst snd held stored made].
      * rewrite Hh. discriminate.
      * intros u v Cu Cv. apply Imutex.
        -- revert Cu. split_thread; [now rewrite Ht|auto].
        -- revert Cv. split_thread; [now rewrite Ht|auto].
      * rewrite Hs. right. split; [now rewrite M|]. exists t. eexists.
        apply upd_same.
      * intros u r. split_thread; [discriminate|].
        intros H. specialize (Iresult u r H). revert Iresult.
        unfold well_formed. cbn [stored]. auto.
  - (* the store *)
    assert (Hh : held sh = true)
      by (apply (held_of_critical (sh, pool) t HI); cbn; now rewrite Ht).
    assert (Hs : stored sh = None).
    { destruct (stored sh); [|reflexivity]. destruct Imade as [_ C].
      specialize (C t). rewrite Ht in C. discriminate. }
    rewrite Hs in Imade.
    assert (M : made sh = 1).
    { destruct Imade as [[_ C]|[M _]]; [|exact M].
      exfalso. exact (C t sc Ht). }
    split; cbn [fst snd held stored made].
    + rewrite Hh. discriminate.
    + intros u v Cu Cv. apply Imutex.
      * revert Cu. split_thread; [now rewrite Ht|auto].
      * revert Cv. split_thread; [now rewrite Ht|auto].
    + split; [exact M|]. intros u. split_thread; [reflexivity|].
      destruct (creating (pool u)) eqn:Cu; [|reflexivity].
      exfalso. apply creating_critical in Cu.
      assert (u = t) by (apply Imutex; [exact Cu|now rewrite Ht]).
      contradiction.
    + intros u r. split_thread.
      * cbn. intros [= <-]. reflexivity.
      * intros H. specialize (Iresult u r H). revert Iresult.
        unfold well_formed. rewrite Hs. cbn [stored].
        destruct r as [[c|] [e|]]; auto; discriminate.
  - (* the deferred Unlock *)
    split; cbn [fst snd held stored made].
    + intros _ u. split_thread; [reflexivity|].
      destruct (critical (pool u)) eqn:Cu; [|reflexivity].
      exfalso. assert (u = t) by (apply Imutex; [exact Cu|now rewrite Ht]).
      contradiction.
    + intros u v Cu Cv. apply Imutex.
      * revert Cu. split_thread; [discriminate|auto].
      * revert Cv. split_thread; [discriminate|auto].
    + destruct (stored sh).
      * destruct Imade as [M C]. split; [exact M|]. intros u. split_thread;
          [reflexivity|apply C].
      * destruct Imade as [[M C]|[M (t0 & sc & C)]].
        -- left. split; [exact M|]. intros u sc. split_thread;
             [discriminate|apply C].
        -- right. split; [exact M|]. exists t0, sc.
           rewrite upd_other; [exact C|]. intros ->. rewrite Ht in C.
           discriminate.
    + intros u r0. split_thread.
      * cbn. intros [= <-]. apply (Iresult t r). now rewrite Ht.
      * intros H. exact (Iresult u r0 H).
  - exact HI.
Qed.

(** While the mutex is held, some caller is inside getStreamConn and holds
    it: no caller that has returned leaves it locked. *)
Lemma holder_start : holder start.
Proof. intros H. discriminate H. Qed.

Lemma holder_step (new_err : nat -> option error) (cl : Client) (t : nat)
  (st : Shared * (nat -> pc)) :
  holder st -> holder (pool_step Shared pc (step new_err cl) t st).
Proof.
  intros HP. destruct st as [sh pool]. unfold pool_step, holder in *.
  cbn [fst snd] in *.
  destruct (pool t) as [| | |sc|r|r] eqn:Ht; cbn [step].
  - destruct (held sh) eqn:Hh; [cbn [fst snd]; now rewrite Hh|].
    intros _. exists t. cbn [fst snd]. now rewrite upd_same.
  - destruct (stored sh); intros _; exists t; cbn [fst snd];
      now rewrite upd_same.
  - destruct (new_err (attempts sh)); intros _; exists t; cbn [fst snd];
      now rewrite upd_same.
  - intros _. exists t. cbn [fst snd]. now rewrite upd_same.
  - cbn [fst snd held]. discriminate.
  - exact HP.
Qed.

End ConnProofs.

Section Alone.

Variables Sh PC : Type.
Variable step : nat -> Sh -> PC -> option (Sh * PC).

Lemma run_alone (t n : nat) (st : Sh * (nat -> PC)) :
  let final := run_schedule Sh PC step (repeat t n) st in
  (fst final, snd final t) = alone Sh PC step t n (fst st, snd st t).
Proof.
  cbv zeta. revert st. induction n as [|n IH]; intros st; [reflexivity|].
  cbn [repeat run_schedule alone]. rewrite IH. f_equal.
  unfold pool_step. cbn [fst snd].
  destruct (step t (fst st) (snd st t)) as [[sh' p']|]; [|reflexivity].
  cbn [fst snd]. now rewrite upd_same.
Qed.

End Alone.

Module ConnRuns.
Import ConnThreads ConnProofs.

Lemma Inv_run (new_err : nat -> option error) (cl : Client)
  (sched : list nat) :
  Inv (run new_err cl sched).
Proof.
  unfold run. apply run_schedule_invariant; [|exact Inv_start].
  intros t st. apply Inv_step.
Qed.

Lemma made_at_most_one (st : Shared * (nat -> pc)) :
  Inv st -> made (fst st) <= 1.
Proof.
  intros HI. pose proof (inv_made st HI) as M.
  destruct (stored (fst st)); [lia|]. destruct M as [[M _]|[M _]]; lia.
Qed.

Lemma returned_is_stored (st : Shared * (nat -> pc)) (t : nat) (c : Conn)
  (e : option error) :
  Inv st -> snd st t = Returned (Some c, e) -> stored (fst st) = Some c.
Proof.
  intros HI H. pose proof (inv_result st HI t (Some c, e)) as R.
  rewrite H in R. specialize (R eq_refl). cbn in R. now destruct e.
Qed.

(** One caller alone takes the steps of the function [getStreamConn]. *)
Lemma solo_run (env : Env) (i : Ingestion) (s : State) (t : nat) :
  let final :=
    run_schedule Shared pc (step (new_err_of env (client i)) (client i))
      (repeat t 5)
      ({| held := false; stored := streamConn i; made := conns_made s;
          attempts := 0 |}, fun _ => AtLock) in
  snd final t = Returned (snd (fst (getStreamConn env i s)))
  /\ stored (fst final) = streamConn (fst (fst (getStreamConn env i s)))
  /\ made (fst final) = conns_made (snd (getStreamConn env i s))
  /\ held (fst final) = false.
Proof.
  cbv zeta.
  pose proof (run_alone Shared pc (step (new_err_of env (client i)) (client i))
                t 5
                ({| held := false; stored := streamConn i;
                    made := conns_made s; attempts := 0 |},
                 fun _ => AtLock)) as R.
  cbv zeta in R. cbn [fst snd] in R.
  destruct (run_schedule Shared pc _ (repeat t 5) _) as [sh pool].
  cbn [fst snd] in *. unfold new_err_of in R.
  destruct (streamConn i) as [c|] eqn:Hc.
  - rewrite (getStreamConn_hit env i s c Hc). cbn in R.
    injection R as -> ->. cbn. auto.
  - destruct (conn_New_err env (Endpoint (client i)) (Auth (client i)))
      as [err|] eqn:Hn.
    + rewrite (getStreamConn_failure env i s err Hc Hn). cbn in R.
      rewrite ?Hn in R. cbn in R. injection R as -> ->. cbn. auto.
    + rewrite (getStreamConn_miss env i s Hc Hn). cbn in R.
      rewrite ?Hn in R. cbn in R. injection R as -> ->. cbn. auto.
Qed.

Lemma holder_run (new_err : nat -> option error) (cl : Client)
  (sched : list nat) :
  holder (run new_err cl sched).
Proof.
  unfold run. apply run_schedule_invariant; [|exact holder_start].
  intros t st. apply holder_step.
Qed.

End ConnRuns.

(** One caller alone takes the steps of the function [getManager]. *)
Lemma solo_getManager (env : Env) (cl : nat -> Client) (s : State) (t : nat) :
  let final :=
    run_schedule ManagerThreads.Shared ManagerThreads.pc
      (ManagerThreads.step env cl) (repeat t 5)
      ({| ManagerThreads.held := false; ManagerThreads.stored := manager s;
          ManagerThreads.made := managers_made s |},
       fun _ => ManagerThreads.AtLoad) in
  snd final t = ManagerThreads.Returned (fst (getManager env (cl t) s))
  /\ ManagerThreads.stored (fst final)
     = manager (snd (getManager env (cl t) s))
  /\ ManagerThreads.made (fst final)
     = managers_made (snd (getManager env (cl t) s)).
Proof.
  cbv zeta.
  pose proof (run_alone ManagerThreads.Shared ManagerThreads.pc
                (ManagerThreads.step env cl) t 5
                ({| ManagerThreads.held := false;
                    ManagerThreads.stored := manager s;
                    ManagerThreads.made := managers_made s |},
                 fun _ => ManagerThreads.AtLoad)) as R.
  cbv zeta in R. cbn [fst snd] in R.
  destruct (run_schedule _ _ _ (repeat t 5) _) as [sh pool].
  cbn [fst snd] in *.
  destruct (manager s) as [m|] eqn:Hm.
  - rewrite (getManager_hit env (cl t) s m Hm). cbn in R.
    injection R as -> ->. cbn. auto.
  - destruct (resources_New_err env (cl t)) as [err|] eqn:Hn.
    + destruct (getManager_failure env (cl t) s err Hm Hn) as (G1 & G2 & G3).
      rewrite G1, G2, G3. cbn in R. rewrite Hn in R. cbn in R.
      injection R as -> ->. cbn. auto.
    + rewrite (getManager_miss env (cl t) s Hm Hn). cbn in R.
      rewrite Hn in R. cbn in R. injection R as -> ->. cbn. auto.
Qed.

(** ** The connection of the streaming orchestrator *)

Lemma within_refl (P : Event -> Prop) (s : State) : within P s s.
Proof. exists []. split; [apply extends_refl|constructor]. Qed.

Lemma within_trans (P : Event -> Prop) (s1 s2 s3 : State) :
  within P s1 s2 -> within P s2 s3 -> within P s1 s3.
Proof.
  intros (l1 & E1 & F1) (l2 & E2 & F2). exists (l1 ++ l2).
  split; [eapply extends_trans; eauto|]. apply Forall_app. now split.
Qed.

Lemma within_log (P : Event -> Prop) (e : Event) (s : State) :
  P e -> within P s (snd (log e s)).
Proof.
  intros H. exists [e]. split; [apply extends_log|]. now constructor.
Qed.

Lemma within_run_options (c : Conn) (options : list FileOption) (n : nat)
  (props : properties.All) (isFile isBlob isReader queued streaming : bool)
  (s : State) :
  within (on_conn c) s
    (snd (run_options options n props isFile isBlob isReader queued streaming
            s)).
Proof.
  destruct (run_options_extends options n props isFile isBlob isReader queued
              streaming s) as (l & E & _ & R).
  exists l. split; [exact E|]. eapply Forall_impl; [|exact R].
  intros e. now destruct e.
Qed.

Section Reuse.

Variable env : Env.

Lemma CompressionDiscovery_run (fPath : string) (s : State) :
  CompressionDiscovery env fPath s
  = (filesystem_CompressionDiscovery env fPath,
     snd (log (EvCompressionDiscovery fPath) s)).
Proof. reflexivity. Qed.

Lemma Open_run (fPath : string) (s : State) :
  Open env fPath s
  = (match os_Open env fPath with
     | inl err => inl err
     | inr content => inr (os_File fPath content)
     end, snd (log (EvOpen fPath) s)).
Proof.
  unfold Open. rewrite bind_run. now destruct (os_Open env fPath).
Qed.

Lemma within_streamImpl (db table : string) (c : Conn) (ctx : Context)
  (payload : Reader) (props : properties.All) (s : State) :
  within (on_conn c) s (snd (streamImpl env db table c ctx payload props s)).
Proof. rewrite streamImpl_run. cbn [snd]. now apply within_log. Qed.

Lemma streaming_FromReader_reuses (j : StreamingIngestion) (ctx : Context)
  (reader : Reader) (options : list FileOption) (s : State) :
  within (on_conn (s_streamConn j)) s
    (snd (StreamingIngestion_FromReader env j ctx reader options s)).
Proof.
  unfold StreamingIngestion_FromReader. rewrite bind_run.
  pose proof (within_run_options (s_streamConn j) options 0
                (StreamingIngestion_newProp j) false false true false true s)
    as W.
  destruct (run_options options 0 (StreamingIngestion_newProp j) false false
              true false true s) as [[props [err|]] s2]; cbn [fst snd] in *;
    [exact W|].
  eapply within_trans; [exact W|apply within_streamImpl].
Qed.

Lemma streaming_FromFile_reuses (j : StreamingIngestion) (ctx : Context)
  (fPath : string) (options : list FileOption) (s : State) :
  within (on_conn (s_streamConn j)) s
    (snd (StreamingIngestion_FromFile env j ctx fPath options s)).
Proof.
  unfold StreamingIngestion_FromFile. rewrite bind_run, IsLocalPath_run.
  cbn [fst snd].
  assert (W1 : within (on_conn (s_streamConn j)) s
                 (snd (log (EvIsLocalPath fPath) s)))
    by now apply within_log.
  destruct (filesystem_IsLocalPath env fPath) as [[|] [err|]];
    cbn [negb ret snd]; try exact W1.
  rewrite bind_run.
  pose proof (within_run_options (s_streamConn j) options 0
                (StreamingIngestion_newProp j) true false false false true
                (snd (log (EvIsLocalPath fPath) s))) as W2.
  destruct (run_options options 0 (StreamingIngestion_newProp j) true false
              false false true _) as [[props [err|]] s2]; cbn [fst snd] in *.
  { eapply within_trans; eauto. }
  rewrite bind_run, CompressionDiscovery_run. cbn [fst snd].
  rewrite bind_run, Open_run. cbn [fst snd].
  assert (W3 : within (on_conn (s_streamConn j)) s
                 (snd (log (EvOpen fPath)
                         (snd (log (EvCompressionDiscovery fPath) s2))))).
  { eapply within_trans; [exact W1|]. eapply within_trans; [exact W2|].
    eapply within_trans; now apply within_log. }
  destruct (os_Open env fPath) as [err|content]; cbn [ret fst snd];
    [exact W3|].
  eapply within_trans; [exact W3|apply within_streamImpl].
Qed.

End Reuse.

(** C5 (amended): the connection of an orchestrator is created once and
    reused, under a plain mutex and with no unsynchronized fast path.  For
    Ingestion, every getStreamConn call takes connMu and releases it on
    return, whether it finds the connection, makes it or fails to make it,
    and before Stream writes; it runs conn.New only when no connection is
    stored, and once one is stored every later call returns that same
    instance; when conn.New fails nothing is stored, and Stream returns that
    error without writing.  Under any interleaving of concurrent callers at
    most one connection is made, every caller that gets a connection gets
    the stored one, at most one caller is between Lock and Unlock, and the
    mutex is held exactly while one is; a caller alone takes the steps of
    getStreamConn and leaves the mutex free.  StreamingIngestion makes its
    connection in NewStreaming, and FromFile and FromReader make none, take
    no lock and write on that instance only. *)
Theorem stream_connection_once (env : Env) :
  (forall i s c, streamConn i = Some c ->
     getStreamConn env i s
     = ((i, (Some c, None)),
        {| manager := manager s; managers_made := managers_made s;
           conns_made := conns_made s; uuids_made := uuids_made s;
           trace := trace s ++ [EvLock connMu] ++ [EvUnlock connMu] |}))
  /\ (forall i s, streamConn i = None ->
        conn_New_err env (Endpoint (client i)) (Auth (client i)) = None ->
        let sc := {| conn_id := conns_made s;
                     conn_endpoint := Endpoint (client i);
                     conn_auth := Auth (client i) |} in
        getStreamConn env i s
        = ((set_streamConn i (Some sc), (Some sc, None)),
           {| manager := manager s; managers_made := managers_made s;
              conns_made := S (conns_made s); uuids_made := uuids_made s;
              trace := trace s ++ [EvLock connMu]
                         ++ [EvConnNew (Endpoint (client i)) (Auth (client i))]
                         ++ [EvUnlock connMu] |}))
  /\ (forall i i' ctx payload format mappingName s c,
        fst (getStreamConn env i s) = (i', (Some c, None)) ->
        exists before,
          trace (snd (getStreamConn env i s)) = before ++ [EvUnlock connMu]
          /\ trace (snd (Stream env i ctx payload format mappingName s))
             = before ++ [EvUnlock connMu]
                 ++ [EvWrite c (db i) (table i) (bytes_NewReader payload)
                       format mappingName ""])
  /\ (forall i s err, streamConn i = None ->
        conn_New_err env (Endpoint (client i)) (Auth (client i)) = Some err ->
        getStreamConn env i s
        = ((i, (None, Some err)),
           {| manager := manager s; managers_made := managers_made s;
              conns_made := conns_made s; uuids_made := uuids_made s;
              trace := trace s ++ [EvLock connMu]
                         ++ [EvConnNew (Endpoint (client i)) (Auth (client i))]
                         ++ [EvUnlock connMu] |}))
  /\ (forall i s,
        exists middle,
          trace (snd (getStreamConn env i s))
          = trace s ++ [EvLock connMu] ++ middle ++ [EvUnlock connMu]
          /\ (forall c, streamConn i = Some c -> middle = [])
          /\ (streamConn i = None ->
              middle = [EvConnNew (Endpoint (client i)) (Auth (client i))]))
  /\ (forall i ctx payload format mappingName s err,
        fst (getStreamConn env i s) = (i, (None, Some err)) ->
        Stream env i ctx payload format mappingName s
        = ((i, Some err), snd (getStreamConn env i s)))
  /\ (forall new_err cl sched,
        let final := ConnThreads.run new_err cl sched in
        ConnThreads.made (fst final) <= 1
        /\ (forall t c e,
              snd final t = ConnThreads.Returned (Some c, e) ->
              ConnThreads.stored (fst final) = Some c)
        /\ (forall t u c c' e e',
              snd final t = ConnThreads.Returned (Some c, e) ->
              snd final u = ConnThreads.Returned (Some c', e') -> c = c')
        /\ (forall t u,
              ConnThreads.critical (snd final t) = true ->
              ConnThreads.critical (snd final u) = true -> t = u)
        /\ (ConnThreads.held (fst final) = false ->
            forall t, ConnThreads.critical (snd final t) = false)
        /\ (ConnThreads.held (fst final) = true ->
            exists t, ConnThreads.critical (snd final t) = true))
  /\ (forall i s t,
        let final :=
          run_schedule ConnThreads.Shared ConnThreads.pc
            (ConnThreads.step (ConnThreads.new_err_of env (client i))
               (client i)) (repeat t 5)
            ({| ConnThreads.held := false;
                ConnThreads.stored := streamConn i;
                ConnThreads.made := conns_made s;
                ConnThreads.attempts := 0 |},
             fun _ => ConnThreads.AtLock) in
        snd final t
        = ConnThreads.Returned (snd (fst (getStreamConn env i s)))
        /\ ConnThreads.stored (fst final)
           = streamConn (fst (fst (getStreamConn env i s)))
        /\ ConnThreads.made (fst final)
           = conns_made (snd (getStreamConn env i s))
        /\ ConnThreads.held (fst final) = false)
  /\ (forall cl db table s,
        conn_New_err env (Endpoint cl) (Auth cl) = None ->
        NewStreaming env cl db table s
        = ((Some {| s_db := db; s_table := table; s_client := cl;
                    s_streamConn :=
                      {| conn_id := conns_made s;
                         conn_endpoint := Endpoint cl;
                         conn_auth := Auth cl |} |}, None),
           {| manager := manager s; managers_made := managers_made s;
              conns_made := S (conns_made s); uuids_made := uuids_made s;
              trace := trace s ++ [EvConnNew (Endpoint cl) (Auth cl)] |}))
  /\ (forall j ctx fPath options s,
        within (on_conn (s_streamConn j)) s
          (snd (StreamingIngestion_FromFile env j ctx fPath options s)))
  /\ (forall j ctx reader options s,
        within (on_conn (s_streamConn j)) s
          (snd (StreamingIngestion_FromReader env j ctx reader options s))).
Proof.
  repeat match goal with |- _ /\ _ => split end.
  - apply getStreamConn_hit.
  - apply getStreamConn_miss.
  - intros i i' ctx payload format mappingName s c Hg.
    rewrite (Stream_with_conn env i i' ctx payload format mappingName s c Hg).
    pose proof (getStreamConn_shape env i s) as Hs. rewrite Hg in Hs.
    destruct Hs as (_ & -> & -> & _). cbn [snd log trace].
    destruct (streamConn i) as [c0|] eqn:Hc.
    + rewrite (getStreamConn_hit env i s c0 Hc). cbn [snd trace].
      exists (trace s ++ [EvLock connMu]). now rewrite <- !app_assoc.
    + destruct (conn_New_err env (Endpoint (client i)) (Auth (client i)))
        as [err|] eqn:Hn.
      * rewrite (getStreamConn_failure env i s err Hc Hn) in Hg.
        discriminate Hg.
      * rewrite (getStreamConn_miss env i s Hc Hn). cbn [snd trace].
        exists (trace s ++ [EvLock connMu]
                  ++ [EvConnNew (Endpoint (client i)) (Auth (client i))]).
        now rewrite <- !app_assoc.
  - apply getStreamConn_failure.
  - intros i s. destruct (streamConn i) as [c0|] eqn:Hc.
    + rewrite (getStreamConn_hit env i s c0 Hc). cbn [snd trace].
      exists []. split; [reflexivity|]. split; [reflexivity|discriminate].
    + destruct (conn_New_err env (Endpoint (client i)) (Auth (client i)))
        as [err|] eqn:Hn.
      * rewrite (getStreamConn_failure env i s err Hc Hn). cbn [snd trace].
        eexists. split; [reflexivity|]. split; [discriminate|reflexivity].
      * rewrite (getStreamConn_miss env i s Hc Hn). cbn [snd trace].
        eexists. split; [reflexivity|]. split; [discriminate|reflexivity].
  - intros i ctx payload format mappingName s err.
    apply Stream_without_conn.
  - intros new_err cl sched final.
    pose proof (ConnRuns.Inv_run new_err cl sched) as HI. fold final in HI.
    pose proof (ConnRuns.holder_run new_err cl sched) as HH.
    fold final in HH.
    split; [now apply ConnRuns.made_at_most_one|]. split.
    { intros t c e. now apply ConnRuns.returned_is_stored. }
    split.
    { intros t u c c' e e' Ht Hu.
      pose proof (ConnRuns.returned_is_stored final t c e HI Ht) as S1.
      pose proof (ConnRuns.returned_is_stored final u c' e' HI Hu) as S2.
      congruence. }
    split; [exact (ConnThreads.inv_mutex final HI)|].
    split; [exact (ConnThreads.inv_free final HI)|exact HH].
  - intros i s t final.
    destruct (ConnRuns.solo_run env i s t) as (H1 & H2 & H3 & H4). auto.
  - intros cl db table s Hn. unfold NewStreaming. run_calls. rewrite Hn.
    reflexivity.
  - apply streaming_FromFile_reuses.
  - apply streaming_FromReader_reuses.
Qed.

Lemma stream_connection_once_witness :
  fst (getStreamConn sample_env
         (set_streamConn sample_Ingestion (Some conn_a)) init_State)
  = (set_streamConn sample_Ingestion (Some conn_a), (Some conn_a, None))
  /\ fst (getStreamConn sample_env sample_Ingestion init_State)
     = (set_streamConn sample_Ingestion (Some conn_a), (Some conn_a, None))
  /\ fst (NewStreaming sample_env client_a "db" "events" init_State)
     = (Some sample_Streaming, None)
  /\ getStreamConn no_conn_env sample_Ingestion init_State
     = ((sample_Ingestion, (None, Some no_conn)),
        {| manager := None; managers_made := 0; conns_made := 0;
           uuids_made := 0;
           trace := [EvLock connMu;
                     EvConnNew (Endpoint client_a) (Auth client_a);
                     EvUnlock connMu] |})
  /\ Stream no_conn_env sample_Ingestion background [] properties.CSV ""
       init_State
     = ((sample_Ingestion, Some no_conn),
        snd (getStreamConn no_conn_env sample_Ingestion init_State)).
Proof.
  destruct (stream_connection_once sample_env)
    as (H1 & H2 & _ & _ & _ & _ & _ & _ & H6 & _).
  destruct (stream_connection_once no_conn_env)
    as (_ & _ & _ & F & _ & S & _).
  split; [|split; [|split; [|split]]].
  - now rewrite (H1 (set_streamConn sample_Ingestion (Some conn_a)) init_State
                   conn_a eq_refl).
  - now rewrite (H2 sample_Ingestion init_State eq_refl eq_refl).
  - now rewrite (H6 client_a "db" "events" init_State eq_refl).
  - exact (F sample_Ingestion init_State no_conn eq_refl eq_refl).
  - apply S. reflexivity.
Defined.

(** C5, as stated, fails: the connection of a StreamingIngestion is made by
    its constructor, before any streaming call, and a getStreamConn call that
    finds the connection stored still takes the mutex. *)
Lemma stream_connection_eager_and_locked :
  NewStreaming sample_env client_a "db" "events" init_State
  = ((Some sample_Streaming, None),
     {| manager := None; managers_made := 0; conns_made := 1;
        uuids_made := 0;
        trace := [EvConnNew (Endpoint client_a) (Auth client_a)] |})
  /\ trace (snd (getStreamConn sample_env
                   (set_streamConn sample_Ingestion (Some conn_a))
                   init_State))
     = [EvLock connMu; EvUnlock connMu].
Proof. split; reflexivity. Qed.

(** Two callers, the first of which finds conn.New failing: the second makes
    the one connection, and a third caller gets that same connection. *)
Example callers_share_one_connection :
  let new_err n :=
    match n with
    | O => Some (collaborator_error "conn.New" 1)
    | S _ => None
    end in
  let final :=
    ConnThreads.run new_err client_a
      [0; 1; 0; 0; 2; 0; 1; 1; 2; 1; 1; 1; 2; 2; 2] in
  snd final 0
  = ConnThreads.Returned (None, Some (collaborator_error "conn.New" 1))
  /\ snd final 1 = ConnThreads.Returned (Some conn_a, None)
  /\ snd final 2 = ConnThreads.Returned (Some conn_a, None)
  /\ ConnThreads.made (fst final) = 1
  /\ ConnThreads.attempts (fst final) = 2.
Proof. repeat split. Qed.

(** * Further properties of the two files *)

(** ** The option loop *)

Lemma runs_cons (n k : nat) (f b r q st : bool) :
  runs n (S k) f b r q st = EvRun n f b r q st :: runs (S n) k f b r q st.
Proof. reflexivity. Qed.

(** The loop leaves one run event per option it ran, numbered in call order,
    all with the flags of the call, and touches nothing else. *)
Lemma run_options_trace (options : list FileOption) :
  forall n props f b r q st s,
  exists k,
    k <= length options
    /\ extends s (snd (run_options options n props f b r q st s))
         (runs n k f b r q st)
    /\ uuids_made (snd (run_options options n props f b r q st s))
       = uuids_made s
    /\ match snd (fst (run_options options n props f b r q st s)) with
       | None => k = length options
       | Some _ => 1 <= k
       end.
Proof.
  induction options as [|o rest IH]; intros n props f b r q st s.
  - exists 0. cbn. split; [lia|]. split; [apply extends_refl|]. auto.
  - rewrite run_options_cons.
    destruct (Run o props f b r q st) as [props' [err|]].
    + exists 1. cbn [fst snd length]. split; [lia|].
      split; [apply extends_log|]. split; [reflexivity|lia].
    + destruct (IH (S n) props' f b r q st
                  (snd (log (EvRun n f b r q st) s)))
        as (k & Hk & Hext & Hu & Hres).
      exists (S k). cbn [length]. split; [lia|]. split; [|split].
      * rewrite runs_cons.
        change (EvRun n f b r q st :: runs (S n) k f b r q st)
          with ([EvRun n f b r q st] ++ runs (S n) k f b r q st).
        eapply extends_trans; [apply extends_log|exact Hext].
      * rewrite Hu. reflexivity.
      * destruct (snd (fst (run_options rest (S n) props' f b r q st _)));
          lia.
Qed.

Lemma runs_flags (n k : nat) (f b r q st : bool) :
  Forall (flags_are f b r q st) (runs n k f b r q st).
Proof.
  unfold runs. apply Forall_forall. intros e He.
  apply in_map_iff in He as (j & <- & _). cbn. auto.
Qed.

Lemma run_options_app (before after : list FileOption) :
  forall n props f b r q st s,
  run_options (before ++ after) n props f b r q st s
  = match run_options before n props f b r q st s with
    | ((p1, None), s1) =>
        run_options after (n + length before) p1 f b r q st s1
    | failed => failed
    end.
Proof.
  induction before as [|o rest IH]; intros n props f b r q st s.
  - cbn. now rewrite Nat.add_0_r.
  - cbn [app length]. rewrite !run_options_cons.
    destruct (Run o props f b r q st) as [props' [err|]]; [reflexivity|].
    rewrite IH. now rewrite Nat.add_succ_r.
Qed.

(** X3: the options are applied in call order, each to the property set the
    one before left; an option that fails ends the loop with its error, and
    no option after it is run. *)
Theorem run_options_in_call_order (before after : list FileOption)
  (o : FileOption) (n : nat) (props p1 : properties.All)
  (f b r q st : bool) (s s1 : State) :
  run_options before n props f b r q st s = ((p1, None), s1) ->
  run_options (before ++ after) n props f b r q st s
  = run_options after (n + length before) p1 f b r q st s1
  /\ (forall err,
        snd (Run o p1 f b r q st) = Some err ->
        run_options (before ++ o :: after) n props f b r q st s
        = ((fst (Run o p1 f b r q st), Some err),
           snd (log (EvRun (n + length before) f b r q st) s1)))
  /\ (snd (Run o p1 f b r q st) = None ->
      run_options (before ++ [o]) n props f b r q st s
      = ((fst (Run o p1 f b r q st), None),
         snd (log (EvRun (n + length before) f b r q st) s1))).
Proof.
  intros H. split; [|split].
  - now rewrite run_options_app, H.
  - intros err He. rewrite run_options_app, H, run_options_cons.
    destruct (Run o p1 f b r q st) as [p2 oe]. cbn [fst snd] in *.
    now subst oe.
  - intros He. rewrite run_options_app, H, run_options_cons.
    destruct (Run o p1 f b r q st) as [p2 oe]. cbn [fst snd] in *.
    now subst oe.
Qed.

Lemma run_options_in_call_order_witness :
  run_options [FileFormat properties.CSV; refusing; ReportResultToTable] 0
    properties.zero_All false false true true false init_State
  = ((set_Format properties.zero_All properties.CSV,
      Some (errors_ES OpFileIngest KClientArgs "option not supported")),
     {| manager := None; managers_made := 0; conns_made := 0;
        uuids_made := 0;
        trace := [EvRun 0 false false true true false;
                  EvRun 1 false false true true false] |}).
Proof.
  destruct (run_options_in_call_order [FileFormat properties.CSV]
              [ReportResultToTable] refusing 0 properties.zero_All
              (set_Format properties.zero_All properties.CSV)
              false false true true false init_State
              (snd (log (EvRun 0 false false true true false) init_State))
              eq_refl) as (_ & H & _).
  exact (H _ eq_refl).
Defined.

(** ** The calls each entry point can make *)

Lemma within_options (P : Event -> Prop) (options : list FileOption)
  (n : nat) (props : properties.All) (f b r q st : bool) (s : State) :
  (forall k, P (EvRun k f b r q st)) ->
  within P s (snd (run_options options n props f b r q st s)).
Proof.
  intros HP.
  destruct (run_options_trace options n props f b r q st s)
    as (k & _ & Hext & _ & _).
  exists (runs n k f b r q st). split; [exact Hext|].
  unfold runs. apply Forall_forall. intros e He.
  apply in_map_iff in He as (j & <- & _). apply HP.
Qed.

Section Calls.

Variable env : Env.
Variable P : Event -> Prop.

Lemma within_assign_ID (props : properties.All) (s : State) :
  P EvUuidNew -> within P s (snd (assign_ID env props s)).
Proof.
  intros HP. unfold assign_ID.
  destruct (uuid.eqb (properties.ID (properties.Source props)) uuid.Nil).
  - rewrite bind_run. cbn [ret snd]. exists [EvUuidNew].
    split; [split; reflexivity|]. now constructor.
  - apply within_refl.
Qed.

Lemma within_prepForIngestion (i : Ingestion) (ctx : Context)
  (options : list FileOption) (f b r : bool) (s : State) :
  P (EvAuthContext (mgr i)) -> P EvUuidNew -> P (EvResources (mgr i)) ->
  (forall k, P (EvRun k f b r true false)) ->
  within P s (snd (prepForIngestion env i ctx options f b r s)).
Proof.
  intros PA PU PR PO.
  destruct (prepForIngestion env i ctx options f b r s) as [res s'] eqn:E.
  unfold prepForIngestion in E. rewrite bind_run in E.
  change (AuthContext env (mgr i) ctx s)
    with (mgr_AuthContext env (mgr i) ctx, snd (log (EvAuthContext (mgr i)) s))
    in E.
  cbn [fst snd] in E.
  assert (X1 : within P s (snd (log (EvAuthContext (mgr i)) s)))
    by now apply within_log.
  set (s1 := snd (log (EvAuthContext (mgr i)) s)) in *.
  destruct (mgr_AuthContext env (mgr i) ctx) as [auth [err|]].
  { injection E as <- <-. exact X1. }
  rewrite bind_run in E.
  pose proof (within_options P options 0 (newProp i auth) f b r true false
                s1 PO) as X2.
  destruct (run_options options 0 (newProp i auth) f b r true false s1)
    as [[props [err|]] s2]; cbn [fst snd] in *.
  { injection E as <- <-. eapply within_trans; eauto. }
  assert (X12 : within P s s2) by (eapply within_trans; eauto).
  destruct (properties.level_is_None
              (properties.ReportLevel (properties.Ingestion_ props)));
    cbn [negb] in E.
  { injection E as <- <-. exact X12. }
  rewrite bind_run in E.
  pose proof (within_assign_ID props s2 PU) as X3.
  destruct (assign_ID env props s2) as [props3 s3]; cbn [fst snd] in *.
  assert (X13 : within P s s3) by (eapply within_trans; eauto).
  assert (X14 : within P s (snd (log (EvResources (mgr i)) s3)))
    by (eapply within_trans; [exact X13|now apply within_log]).
  destruct (properties.ReportMethod (properties.Ingestion_ props3)).
  - injection E as <- <-. exact X13.
  - rewrite bind_run in E.
    change (Resources_ env (mgr i) s3)
      with (mgr_Resources env (mgr i), snd (log (EvResources (mgr i)) s3))
      in E.
    cbn [fst snd] in E.
    destruct (mgr_Resources env (mgr i)) as [rs [err|]];
      [|destruct (Tables rs) as [|t0 ts]]; injection E as <- <-; exact X14.
  - rewrite bind_run in E.
    change (Resources_ env (mgr i) s3)
      with (mgr_Resources env (mgr i), snd (log (EvResources (mgr i)) s3))
      in E.
    cbn [fst snd] in E.
    destruct (mgr_Resources env (mgr i)) as [rs [err|]];
      [|destruct (Tables rs) as [|t0 ts]]; injection E as <- <-; exact X14.
Qed.

Lemma within_queued_FromFile (i : Ingestion) (ctx : Context) (fPath : string)
  (options : list FileOption) (s : State) :
  let local := fst (filesystem_IsLocalPath env fPath) in
  P (EvIsLocalPath fPath) ->
  P (EvAuthContext (mgr i)) -> P EvUuidNew -> P (EvResources (mgr i)) ->
  (forall k, P (EvRun k local (negb local) false true false)) ->
  (local = true -> forall props, P (EvLocal fPath props)) ->
  (local = false -> forall props, P (EvBlob fPath 0 props)) ->
  within P s (snd (Ingestion_FromFile env i ctx fPath options s)).
Proof.
  intros local PI PA PU PR PO PL PB.
  unfold Ingestion_FromFile. rewrite bind_run, IsLocalPath_run.
  cbn [fst snd].
  assert (X1 : within P s (snd (log (EvIsLocalPath fPath) s)))
    by now apply within_log.
  subst local.
  destruct (filesystem_IsLocalPath env fPath) as [local [err|]];
    cbn [fst] in *; [exact X1|].
  rewrite bind_run.
  pose proof (within_prepForIngestion i ctx options local (negb local) false
                (snd (log (EvIsLocalPath fPath) s)) PA PU PR PO) as X2.
  destruct (prepForIngestion env i ctx options local (negb local) false
              (snd (log (EvIsLocalPath fPath) s)))
    as [[[[result|] props] [err|]] s2]; cbn [fst snd ret] in *;
    try (eapply within_trans; [exact X1|exact X2]).
  rewrite bind_run.
  assert (X12 : within P s s2) by (eapply within_trans; eauto).
  destruct local.
  - unfold Local. rewrite bind_run. cbn [ret fst snd].
    assert (X3 : within P s (snd (log (EvLocal fPath props) s2)))
      by (eapply within_trans; [exact X12|apply within_log; now apply PL]).
    now destruct (fs_Local env (fs i) ctx fPath props).
  - unfold Blob. rewrite bind_run. cbn [ret fst snd].
    assert (X3 : within P s (snd (log (EvBlob fPath 0 props) s2)))
      by (eapply within_trans; [exact X12|apply within_log; now apply PB]).
    now destruct (fs_Blob env (fs i) ctx fPath 0 props).
Qed.

Lemma within_queued_FromReader (i : Ingestion) (ctx : Context)
  (reader : Reader) (options : list FileOption) (s : State) :
  P (EvAuthContext (mgr i)) -> P EvUuidNew -> P (EvResources (mgr i)) ->
  (forall k, P (EvRun k false false true true false)) ->
  (forall props, P (EvReader reader props)) ->
  within P s (snd (Ingestion_FromReader env i ctx reader options s)).
Proof.
  intros PA PU PR PO PS.
  unfold Ingestion_FromReader. rewrite bind_run.
  pose proof (within_prepForIngestion i ctx options false false true s
                PA PU PR PO) as X1.
  destruct (prepForIngestion env i ctx options false false true s)
    as [[[res props] [err|]] s1]; cbn [fst snd ret] in *; [exact X1|].
  destruct (properties.format_is_DFUnknown _); [exact X1|].
  rewrite bind_run. unfold Reader_ at 1 2. rewrite !bind_run.
  cbn [ret fst snd].
  assert (X2 : within P s (snd (log (EvReader reader props) s1)))
    by (eapply within_trans; [exact X1|apply within_log; apply PS]).
  destruct (fs_Reader env (fs i) ctx reader props) as [path [err|]];
    [exact X2|]. now destruct res.
Qed.

Lemma within_streamImpl_P (db table : string) (c : Conn) (ctx : Context)
  (payload : Reader) (props : properties.All) (s : State) :
  (forall p fmt m rid, P (EvWrite c db table p fmt m rid)) ->
  within P s (snd (streamImpl env db table c ctx payload props s)).
Proof.
  intros PW. rewrite streamImpl_run. cbn [snd]. apply within_log, PW.
Qed.

Lemma within_streaming_FromFile (j : StreamingIngestion) (ctx : Context)
  (fPath : string) (options : list FileOption) (s : State) :
  P (EvIsLocalPath fPath) ->
  (forall k, P (EvRun k true false false false true)) ->
  P (EvCompressionDiscovery fPath) -> P (EvOpen fPath) ->
  (forall p fmt m rid,
     P (EvWrite (s_streamConn j) (s_db j) (s_table j) p fmt m rid)) ->
  within P s (snd (StreamingIngestion_FromFile env j ctx fPath options s)).
Proof.
  intros PI PO PC PF PW.
  unfold StreamingIngestion_FromFile. rewrite bind_run, IsLocalPath_run.
  cbn [fst snd].
  assert (W1 : within P s (snd (log (EvIsLocalPath fPath) s)))
    by now apply within_log.
  destruct (filesystem_IsLocalPath env fPath) as [[|] [err|]];
    cbn [negb ret snd]; try exact W1.
  rewrite bind_run.
  pose proof (within_options P options 0 (StreamingIngestion_newProp j) true
                false false false true (snd (log (EvIsLocalPath fPath) s))
                PO) as W2.
  destruct (run_options options 0 (StreamingIngestion_newProp j) true false
              false false true _) as [[props [err|]] s2]; cbn [fst snd] in *.
  { eapply within_trans; eauto. }
  rewrite bind_run, CompressionDiscovery_run. cbn [fst snd].
  rewrite bind_run, Open_run. cbn [fst snd].
  assert (W3 : within P s
                 (snd (log (EvOpen fPath)
                         (snd (log (EvCompressionDiscovery fPath) s2))))).
  { eapply within_trans; [exact W1|]. eapply within_trans; [exact W2|].
    eapply within_trans; now apply within_log. }
  destruct (os_Open env fPath) as [err|content]; cbn [ret fst snd];
    [exact W3|].
  eapply within_trans; [exact W3|now apply within_streamImpl_P].
Qed.

Lemma within_streaming_FromReader (j : StreamingIngestion) (ctx : Context)
  (reader : Reader) (options : list FileOption) (s : State) :
  (forall k, P (EvRun k false false true false true)) ->
  (forall p fmt m rid,
     P (EvWrite (s_streamConn j) (s_db j) (s_table j) p fmt m rid)) ->
  within P s (snd (StreamingIngestion_FromReader env j ctx reader options s)).
Proof.
  intros PO PW. unfold StreamingIngestion_FromReader. rewrite bind_run.
  pose proof (within_options P options 0 (StreamingIngestion_newProp j) false
                false true false true s PO) as W.
  destruct (run_options options 0 (StreamingIngestion_newProp j) false false
              true false true s) as [[props [err|]] s2]; cbn [fst snd] in *;
    [exact W|].
  eapply within_trans; [exact W|now apply within_streamImpl_P].
Qed.

End Calls.

(** X4: every option is run with the mode flags of its entry point: queued
    FromFile passes isFile for a local path and isBlob for any other (never
    both, never isReader), queued FromReader passes isReader alone, and both
    pass queued and not streaming; streaming FromFile passes isFile alone and
    streaming FromReader isReader alone, both with streaming and not
    queued. *)
Theorem options_run_with_mode_flags (env : Env) :
  (forall i ctx fPath options s,
     let local := fst (filesystem_IsLocalPath env fPath) in
     within (flags_are local (negb local) false true false) s
       (snd (Ingestion_FromFile env i ctx fPath options s)))
  /\ (forall i ctx reader options s,
        within (flags_are false false true true false) s
          (snd (Ingestion_FromReader env i ctx reader options s)))
  /\ (forall j ctx fPath options s,
        within (flags_are true false false false true) s
          (snd (StreamingIngestion_FromFile env j ctx fPath options s)))
  /\ (forall j ctx reader options s,
        within (flags_are false false true false true) s
          (snd (StreamingIngestion_FromReader env j ctx reader options s))).
Proof.
  repeat match goal with |- _ /\ _ => split end; intros.
  - apply within_queued_FromFile; cbn; auto.
  - apply within_queued_FromReader; cbn; auto.
  - apply within_streaming_FromFile; cbn; auto.
  - apply within_streaming_FromReader; cbn; auto.
Qed.

(** X9: the two paths keep to their collaborators.  Queued FromFile and
    FromReader take no lock, make no connection, open no file and write on
    no connection; streaming FromFile and FromReader ask the Resource Manager
    nothing, draw no UUID and stage nothing; a local path is never staged as
    a blob nor a remote one as a local file.  None of the four changes the
    stored Manager or the count of Managers and connections made. *)
Theorem paths_keep_to_their_collaborators (env : Env) :
  (forall i ctx fPath options s,
     within (fun e =>
               queued_event e
               /\ match e with
                  | EvLocal _ _ => fst (filesystem_IsLocalPath env fPath) = true
                  | EvBlob _ offset _ =>
                      fst (filesystem_IsLocalPath env fPath) = false
                      /\ offset = 0%Z
                  | EvReader _ _ => False
                  | _ => True
                  end) s
       (snd (Ingestion_FromFile env i ctx fPath options s)))
  /\ (forall i ctx reader options s,
        within (fun e =>
                  queued_event e
                  /\ match e with
                     | EvLocal _ _ | EvBlob _ _ _ | EvIsLocalPath _ => False
                     | EvReader r _ => r = reader
                     | _ => True
                     end) s
          (snd (Ingestion_FromReader env i ctx reader options s)))
  /\ (forall j ctx fPath options s,
        within streaming_event s
          (snd (StreamingIngestion_FromFile env j ctx fPath options s)))
  /\ (forall j ctx reader options s,
        within (fun e =>
                  streaming_event e
                  /\ match e with
                     | EvIsLocalPath _ | EvOpen _
                     | EvCompressionDiscovery _ => False
                     | _ => True
                     end) s
          (snd (StreamingIngestion_FromReader env j ctx reader options s))).
Proof.
  repeat match goal with |- _ /\ _ => split end; intros.
  - apply within_queued_FromFile; cbn; auto.
  - apply within_queued_FromReader; cbn; auto.
  - apply within_streaming_FromFile; cbn; auto.
  - apply within_streaming_FromReader; cbn; auto.
Qed.

(** ** The constructors *)

Section Constructors.

Variable env : Env.

Lemma getManager_exactly_one (client : Client) (s : State) :
  exactly_one (fst (getManager env client s)).
Proof.
  destruct (manager s) as [m|] eqn:Hm.
  - now rewrite (getManager_hit env client s m Hm).
  - destruct (resources_New_err env client) as [err|] eqn:Hn.
    + destruct (getManager_failure env client s err Hm Hn) as (-> & _).
      exact I.
    + now rewrite (getManager_miss env client s Hm Hn).
Qed.

Lemma conn_news_app (a b : list Event) :
  conn_news (a ++ b) = conn_news a + conn_news b.
Proof. unfold conn_news. now rewrite filter_app, length_app. Qed.

(** getManager makes no connection. *)
Lemma getManager_no_conn (client : Client) (s : State) :
  conns_made (snd (getManager env client s)) = conns_made s
  /\ conn_news (trace (snd (getManager env client s))) = conn_news (trace s).
Proof.
  unfold getManager. run_calls. destruct (manager s) as [m|]; [auto|].
  run_calls. destruct (resources_New_err env client) as [err|]; run_calls;
    rewrite !conn_news_app; cbn; split; auto; lia.
Qed.

(** What getManager leaves stored is what it returned. *)
Lemma getManager_stored (client : Client) (s : State) (m : Manager) :
  fst (getManager env client s) = (Some m, None) ->
  manager (snd (getManager env client s)) = Some m
  /\ (forall m0, manager s = Some m0 -> m = m0).
Proof.
  destruct (manager s) as [m0|] eqn:Hm.
  - rewrite (getManager_hit env client s m0 Hm). cbn [fst snd].
    intros [= <-]. split; auto. now intros m1 [= <-].
  - destruct (resources_New_err env client) as [err|] eqn:Hn.
    + destruct (getManager_failure env client s err Hm Hn) as (-> & _).
      discriminate.
    + rewrite (getManager_miss env client s Hm Hn). cbn [fst snd manager].
      intros [= <-]. split; [reflexivity|discriminate].
Qed.

Lemma New_run (client : Client) (db table : string) (s : State) :
  New env client db table s
  = match fst (getManager env client s) with
    | (_, Some err) => ((None, Some err), snd (getManager env client s))
    | (None, None) =>
        ((None, Some nil_dereference), snd (getManager env client s))
    | (Some mgr, None) =>
        (match filesystem_New_err env db table mgr with
         | Some err => (None, Some err)
         | None =>
             (Some {| db := db; table := table; client := client;
                      mgr := mgr;
                      fs := {| fs_db := db; fs_table := table;
                               fs_mgr := mgr |};
                      streamConn := None |}, None)
         end,
         snd (log (EvFilesystemNew db table mgr)
                (snd (getManager env client s))))
    end.
Proof.
  unfold New. rewrite bind_run.
  destruct (fst (getManager env client s)) as [[mgr|] [err|]];
    try reflexivity.
  rewrite bind_run. unfold filesystem_New. rewrite !bind_run.
  cbn [fst snd log].
  now destruct (filesystem_New_err env db table mgr).
Qed.

End Constructors.

(** X1: New builds on the process-wide Manager and makes no connection.  An
    Ingestion it returns has the database, table and client given, a staging
    collaborator built from them and from its Manager, and no stream
    connection yet; its Manager is the one stored afterwards, and the one
    stored before when there was one, so two orchestrators built one after
    the other, for any two clients, hold the same Manager.  When getManager
    fails, New returns that error without calling filesystem.New. *)
Theorem New_builds_on_the_stored_Manager (env : Env) (cl : Client)
  (db_ table_ : string) (s : State) :
  let r := New env cl db_ table_ s in
  conns_made (snd r) = conns_made s
  /\ conn_news (trace (snd r)) = conn_news (trace s)
  /\ (forall i, fst r = (Some i, None) ->
        db i = db_ /\ table i = table_ /\ client i = cl
        /\ streamConn i = None
        /\ fs i = {| fs_db := db_; fs_table := table_; fs_mgr := mgr i |}
        /\ manager (snd r) = Some (mgr i)
        /\ (forall m0, manager s = Some m0 -> mgr i = m0)
        /\ forall cl' db' table' i',
             fst (New env cl' db' table' (snd r)) = (Some i', None) ->
             mgr i' = mgr i)
  /\ (forall err, snd (fst (getManager env cl s)) = Some err ->
        r = ((None, Some err), snd (getManager env cl s))).
Proof.
  cbv zeta. destruct (getManager_no_conn env cl s) as [Hc Hn].
  pose proof (getManager_stored env cl s) as Hst.
  rewrite New_run.
  destruct (fst (getManager env cl s)) as [[m|] [err|]] eqn:Hg;
    cbn [fst snd log conns_made trace manager].
  - repeat split; auto; try discriminate. now intros err0 [= <-].
  - rewrite conn_news_app, Hn. cbn. split; [exact Hc|]. split; [lia|].
    destruct (Hst m eq_refl) as [Hm Hm0]. split; [|discriminate].
    intros i Hi.
    destruct (filesystem_New_err env db_ table_ m); [discriminate|].
    injection Hi as <-. cbn [db table client streamConn fs mgr].
    repeat split; auto.
    intros cl' db' table' i'. rewrite New_run.
    match goal with
    | |- context [getManager env cl' ?st] =>
        assert (Hs1 : manager st = Some m) by exact Hm;
        rewrite (getManager_hit env cl' st m Hs1)
    end. cbn [fst snd].
    destruct (filesystem_New_err env db' table' m); [discriminate|].
    now intros [= <-].
  - repeat split; auto; try discriminate. now intros err0 [= <-].
  - repeat split; auto; discriminate.
Qed.

Lemma New_builds_on_the_stored_Manager_witness :
  exists i1 i2,
    fst (New sample_env client_a "db" "events" init_State) = (Some i1, None)
    /\ fst (New sample_env client_b "other" "rows"
              (snd (New sample_env client_a "db" "events" init_State)))
       = (Some i2, None)
    /\ client i2 = client_b /\ mgr i2 = mgr i1 /\ streamConn i2 = None.
Proof.
  destruct (New_builds_on_the_stored_Manager sample_env client_a "db" "events"
              init_State) as (_ & _ & H & _).
  destruct (H sample_Ingestion eq_refl) as (_ & _ & _ & _ & _ & _ & _ & H2).
  exists sample_Ingestion. eexists. split; [reflexivity|].
  split; [reflexivity|]. split; [reflexivity|].
  split; [apply (H2 client_b "other" "rows"); reflexivity|reflexivity].
Defined.

(** X2: getManager, New, NewStreaming and getStreamConn each return either a
    non-nil value with a nil error or a nil value with a non-nil error, on
    every input and whatever the collaborators answer; an error of New is the
    error of getManager or, when getManager gave a Manager, that of
    filesystem.New on it. *)
Theorem constructors_return_one (env : Env) :
  (forall cl s, exactly_one (fst (getManager env cl s)))
  /\ (forall cl db_ table_ s,
        exactly_one (fst (New env cl db_ table_ s))
        /\ forall err,
             snd (fst (New env cl db_ table_ s)) = Some err ->
             snd (fst (getManager env cl s)) = Some err
             \/ exists m,
                  fst (getManager env cl s) = (Some m, None)
                  /\ filesystem_New_err env db_ table_ m = Some err)
  /\ (forall cl db_ table_ s,
        exactly_one (fst (NewStreaming env cl db_ table_ s)))
  /\ (forall i s, exactly_one (snd (fst (getStreamConn env i s)))).
Proof.
  repeat match goal with |- _ /\ _ => split end.
  - apply getManager_exactly_one.
  - intros cl db_ table_ s.
    pose proof (getManager_exactly_one env cl s) as H. rewrite New_run.
    destruct (fst (getManager env cl s)) as [[m|] [e|]]; try contradiction;
      cbn [fst snd].
    + split.
      * now destruct (filesystem_New_err env db_ table_ m).
      * intros err.
        destruct (filesystem_New_err env db_ table_ m) as [e|] eqn:Hf;
          [|discriminate].
        intros [= <-]. right. exists m. auto.
    + split; [exact I|]. intros err [= <-]. now left.
  - intros cl db_ table_ s. unfold NewStreaming. rewrite bind_run.
    unfold conn_New. rewrite !bind_run. cbn [fst snd log].
    destruct (conn_New_err env (Endpoint cl) (Auth cl)); exact I.
  - intros i s. pose proof (getStreamConn_shape env i s) as H.
    destruct (fst (getStreamConn env i s)) as [i' [[c|] [e|]]];
      try contradiction; exact I.
Qed.

Lemma constructors_return_one_witness :
  fst (New no_manager_env client_a "db" "events" init_State)
  = (None, Some no_manager)
  /\ snd (fst (getManager no_manager_env client_a init_State))
     = Some no_manager.
Proof.
  destruct (constructors_return_one no_manager_env) as (_ & H & _).
  destruct (H client_a "db" "events" init_State) as [_ H2].
  split; [reflexivity|].
  destruct (H2 no_manager eq_refl) as [G|(m & G & _)];
    [exact G|discriminate G].
Defined.

(** ** prepForIngestion, beyond the reporting block *)

Section Preparation.

Variable env : Env.

Lemma assign_ID_trace (props : properties.All) (s : State) :
  trace (snd (assign_ID env props s))
  = trace s
    ++ (if uuid.eqb (properties.ID (properties.Source props)) uuid.Nil
        then [EvUuidNew] else []).
Proof.
  unfold assign_ID.
  destruct (uuid.eqb (properties.ID (properties.Source props)) uuid.Nil).
  - reflexivity.
  - cbn [ret snd]. now rewrite app_nil_r.
Qed.

(** The Result of a successful preparation is a new Result holding the
    property set; a failed one comes with the zero property set. *)
Lemma prepForIngestion_result (i : Ingestion) (ctx : Context)
  (options : list FileOption) (f b r : bool) (s : State) :
  match fst (prepForIngestion env i ctx options f b r s) with
  | (Some result, props, None) => result = putProps newResult props
  | (None, props, Some _) => props = properties.zero_All
  | _ => False
  end.
Proof.
  unfold prepForIngestion. rewrite bind_run.
  change (AuthContext env (mgr i) ctx s)
    with (mgr_AuthContext env (mgr i) ctx, snd (log (EvAuthContext (mgr i)) s)).
  cbn [fst snd].
  destruct (mgr_AuthContext env (mgr i) ctx) as [auth [err|]];
    [reflexivity|].
  rewrite bind_run.
  destruct (run_options options 0 (newProp i auth) f b r true false _)
    as [[props [err|]] s2]; cbn [fst snd]; [reflexivity|].
  destruct (properties.level_is_None _); cbn [negb]; [reflexivity|].
  rewrite bind_run.
  destruct (properties.ReportMethod
              (properties.Ingestion_ (fst (assign_ID env props s2))));
    [reflexivity| |].
  all: rewrite bind_run.
  all: change (Resources_ env (mgr i) (snd (assign_ID env props s2)))
         with (mgr_Resources env (mgr i),
               snd (log (EvResources (mgr i))
                      (snd (assign_ID env props s2)))).
  all: cbn [fst snd].
  all: destruct (mgr_Resources env (mgr i)) as [rs [err|]];
         [reflexivity|destruct (Tables rs); reflexivity].
Qed.

End Preparation.



(** X6: with ReportLevel None the reporting block is skipped altogether,
    whatever the report method and whether or not a status table exists: no
    UUID is drawn, the Resource Manager is not asked for its resources, the
    property set is the one the options left, and the call succeeds. *)
Theorem prepForIngestion_without_reporting (env : Env) (i : Ingestion)
  (ctx : Context) (options : list FileOption) (f b r : bool) (s s2 : State)
  (auth : string) (props : properties.All) :
  mgr_AuthContext env (mgr i) ctx = (auth, None) ->
  run_options options 0 (newProp i auth) f b r true false
    (snd (AuthContext env (mgr i) ctx s)) = ((props, None), s2) ->
  properties.ReportLevel (properties.Ingestion_ props) = properties.None ->
  prepForIngestion env i ctx options f b r s
  = ((Some (putProps newResult props), props, None), s2).
Proof.
  intros Ha Ho HL. unfold prepForIngestion. rewrite bind_run.
  replace (fst (AuthContext env (mgr i) ctx s)) with (auth, @None error)
    by (cbn; now rewrite Ha).
  cbn iota. rewrite bind_run, Ho. cbn [fst snd]. now rewrite HL.
Qed.

Lemma prepForIngestion_without_reporting_witness :
  prepForIngestion no_table_env sample_Ingestion background
    [ReportNothingToTable] true false false init_State
  = ((Some (putProps newResult
              (set_Report (newProp sample_Ingestion "token") properties.None
                 properties.ReportStatusToTable)),
      set_Report (newProp sample_Ingestion "token") properties.None
        properties.ReportStatusToTable, None),
     {| manager := None; managers_made := 0; conns_made := 0;
        uuids_made := 0;
        trace := [EvAuthContext manager_a; EvRun 0 true false false true false]
     |}).
Proof.
  exact (prepForIngestion_without_reporting no_table_env sample_Ingestion
           background [ReportNothingToTable] true false false init_State _
           "token" _ eq_refl eq_refl eq_refl).
Defined.

(** X7: when reporting is on, the Resource Manager is asked for its
    resources only if the report method names a status table, once, after
    the correlation id is settled; with ReportStatusToQueue it is not asked
    and the call succeeds.  An error of that lookup is returned as the
    Manager gave it, with a nil Result, whatever tables came with it. *)
Theorem prepForIngestion_status_table_lookup (env : Env) (i : Ingestion)
  (ctx : Context) (options : list FileOption) (f b r : bool) (s s2 : State)
  (auth : string) (props : properties.All) :
  mgr_AuthContext env (mgr i) ctx = (auth, None) ->
  run_options options 0 (newProp i auth) f b r true false
    (snd (AuthContext env (mgr i) ctx s)) = ((props, None), s2) ->
  properties.ReportLevel (properties.Ingestion_ props) <> properties.None ->
  let p := prepForIngestion env i ctx options f b r s in
  let drawn :=
    if uuid.eqb (properties.ID (properties.Source props)) uuid.Nil
    then [EvUuidNew] else [] in
  (properties.ReportMethod (properties.Ingestion_ props)
   = properties.ReportStatusToQueue ->
   trace (snd p) = trace s2 ++ drawn /\ snd (fst p) = None)
  /\ (properties.ReportMethod (properties.Ingestion_ props)
      <> properties.ReportStatusToQueue ->
      trace (snd p) = trace s2 ++ drawn ++ [EvResources (mgr i)]
      /\ forall rs err,
           mgr_Resources env (mgr i) = (rs, Some err) ->
           fst p = (None, properties.zero_All, Some err)).
Proof.
  intros Ha Ho HL p drawn. subst p.
  unfold prepForIngestion. rewrite bind_run.
  replace (fst (AuthContext env (mgr i) ctx s)) with (auth, @None error)
    by (cbn; now rewrite Ha).
  cbn iota. rewrite bind_run, Ho. cbn [fst snd].
  destruct (properties.ReportLevel (properties.Ingestion_ props)) eqn:EL;
    try (exfalso; apply HL; reflexivity);
    cbn [negb properties.level_is_None].
  all: rewrite bind_run.
  all: destruct (assign_ID_facts env props s2) as (_ & I3 & _ & _).
  all: rewrite I3.
  all: pose proof (assign_ID_trace env props s2) as T; fold drawn in T.
  all: split.
  all: try (intros HQ; rewrite HQ; cbn [ret fst snd]; now split).
  all: intros HT.
  all: destruct (properties.ReportMethod (properties.Ingestion_ props));
         try (exfalso; apply HT; reflexivity).
  all: rewrite bind_run.
  all: change (Resources_ env (mgr i) (snd (assign_ID env props s2)))
         with (mgr_Resources env (mgr i),
               snd (log (EvResources (mgr i))
                      (snd (assign_ID env props s2)))).
  all: cbn [fst snd].
  all: split;
         [destruct (mgr_Resources env (mgr i)) as [rs [err|]];
            [|destruct (Tables rs)]; cbn [ret snd log trace];
            now rewrite T, <- app_assoc
         |intros rs err Hr; now rewrite Hr].
Qed.

Lemma prepForIngestion_status_table_lookup_witness :
  trace (snd (prepForIngestion no_table_env sample_Ingestion background
                [ReportResultToQueue] true false false init_State))
  = [EvAuthContext manager_a; EvRun 0 true false false true false; EvUuidNew]
  /\ snd (fst (prepForIngestion no_table_env sample_Ingestion background
                 [ReportResultToQueue] true false false init_State)) = None.
Proof.
  destruct (prepForIngestion_status_table_lookup no_table_env
              sample_Ingestion background [ReportResultToQueue] true false
              false init_State _ "token" _ eq_refl eq_refl
              ltac:(discriminate)) as [H _].
  exact (H eq_refl).
Defined.

(** ** Queued FromFile: classification and staging *)

Lemma queued_FromFile_state (env : Env) (i : Ingestion) (ctx : Context)
  (fPath : string) (options : list FileOption) (s : State) (local : bool) :
  filesystem_IsLocalPath env fPath = (local, None) ->
  let p := prepForIngestion env i ctx options local (negb local) false
             (snd (IsLocalPath env fPath s)) in
  snd (Ingestion_FromFile env i ctx fPath options s)
  = match fst p with
    | (Some _, props, None) =>
        snd (log (if local then EvLocal fPath props
                  else EvBlob fPath 0 props) (snd p))
    | _ => snd p
    end.
Proof.
  intros Hl p. subst p. unfold Ingestion_FromFile.
  rewrite bind_run, IsLocalPath_run. cbn [fst snd]. rewrite Hl.
  rewrite bind_run.
  destruct (prepForIngestion env i ctx options local (negb local) false
              (snd (log (EvIsLocalPath fPath) s)))
    as [[[[result|] props] [err|]] s2]; cbn [fst snd ret]; try reflexivity.
  rewrite bind_run. destruct local; unfold Local, Blob; rewrite !bind_run;
    cbn [ret fst snd].
  - now destruct (fs_Local env (fs i) ctx fPath props).
  - now destruct (fs_Blob env (fs i) ctx fPath 0 props).
Qed.

(** X8: queued FromFile stages once, by the kind of the path.  When the
    classification fails nothing else is called.  When the preparation fails
    nothing is staged.  Otherwise exactly one staging call is made, the last
    call of all: Local for a local path, Blob at offset 0 for any other, on
    the path and the prepared property set; if it succeeds the Result
    records the path, holds that property set and is marked queued with the
    Manager of the orchestrator; if it fails the Result is nil. *)
Theorem queued_FromFile_stages_by_kind (env : Env) (i : Ingestion)
  (ctx : Context) (fPath : string) (options : list FileOption) (s : State) :
  let r := Ingestion_FromFile env i ctx fPath options s in
  (forall local err,
     filesystem_IsLocalPath env fPath = (local, Some err) ->
     fst r = (None, Some err)
     /\ trace (snd r) = trace s ++ [EvIsLocalPath fPath])
  /\ (forall local,
        filesystem_IsLocalPath env fPath = (local, None) ->
        let p := prepForIngestion env i ctx options local (negb local) false
                   (snd (IsLocalPath env fPath s)) in
        (forall err, snd (fst p) = Some err ->
           fst r = (None, Some err)
           /\ uploads (trace (snd r)) = uploads (trace s))
        /\ (forall result props,
              fst p = (Some result, props, None) ->
              let staging :=
                if local then EvLocal fPath props
                else EvBlob fPath 0 props in
              let answer :=
                if local then fs_Local env (fs i) ctx fPath props
                else fs_Blob env (fs i) ctx fPath 0 props in
              trace (snd r) = trace (snd p) ++ [staging]
              /\ uploads (trace (snd r)) = uploads (trace s) ++ [staging]
              /\ (answer = None ->
                  exists queued,
                    fst r = (Some queued, None)
                    /\ IngestionSourcePath (record queued) = fPath
                    /\ props_snapshot queued = props
                    /\ queued_with queued = Some (mgr i))
              /\ (forall err, answer = Some err ->
                    fst r = (None, Some err)))).
Proof.
  cbv zeta. split.
  - intros local err Hl. unfold Ingestion_FromFile.
    rewrite bind_run, IsLocalPath_run. cbn [fst snd]. now rewrite Hl.
  - intros local Hl.
    pose proof (queued_FromFile_run env i ctx fPath options s local Hl) as R.
    pose proof (queued_FromFile_state env i ctx fPath options s local Hl)
      as S.
    cbv zeta in R, S. rewrite IsLocalPath_run in S. cbn [snd] in S.
    rewrite IsLocalPath_run. cbn [snd].
    destruct (prepForIngestion_facts env i ctx options local (negb local)
                false (snd (log (EvIsLocalPath fPath) s))) as [Q F].
    pose proof (prepForIngestion_result env i ctx options local (negb local)
                  false (snd (log (EvIsLocalPath fPath) s))) as PR.
    assert (Q0 : quiet s (snd (log (EvIsLocalPath fPath) s)))
      by now apply quiet_log.
    assert (Q1 := quiet_uploads _ _ (quiet_trans _ _ _ Q0 Q)).
    destruct (prepForIngestion env i ctx options local (negb local) false
                (snd (log (EvIsLocalPath fPath) s)))
      as [[[res props] oe] s2]. cbn [fst snd] in *.
    split.
    + intros err ->. rewrite R, S. destruct res; [contradiction|].
      split; [reflexivity|exact Q1].
    + intros result props' [= -> -> ->]. rewrite R, S. cbn [snd log trace].
      split; [reflexivity|]. split.
      * rewrite uploads_app, Q1. now destruct local.
      * subst result. split.
        -- intros ->. eexists. split; [reflexivity|]. repeat split.
        -- now intros err ->.
Qed.

Lemma queued_FromFile_stages_by_kind_witness :
  uploads (trace (snd (Ingestion_FromFile sample_env sample_Ingestion
                         background "https://account.blob/c/data.csv"
                         [ReportNothingToTable] init_State)))
  = [EvBlob "https://account.blob/c/data.csv" 0
       (set_Report (newProp sample_Ingestion "token") properties.None
          properties.ReportStatusToTable)]
  /\ uploads (trace (snd (Ingestion_FromFile sample_env sample_Ingestion
                            background "data.csv" [refusing] init_State)))
     = [].
Proof.
  destruct (queued_FromFile_stages_by_kind sample_env sample_Ingestion
              background "https://account.blob/c/data.csv"
              [ReportNothingToTable] init_State) as [_ H].
  destruct (H false eq_refl) as [_ H2].
  destruct (H2 _ _ eq_refl) as (_ & H3 & _).
  destruct (queued_FromFile_stages_by_kind sample_env sample_Ingestion
              background "data.csv" [refusing] init_State) as [_ G].
  destruct (G true eq_refl) as [G2 _].
  destruct (G2 _ eq_refl) as [_ G3].
  split; [exact H3|exact G3].
Defined.

(** ** streamImpl and the streaming entry points *)

(** X12: streamImpl makes exactly one connection write, whether it succeeds
    or not, tagged with the database and table given and with the format,
    mapping reference and request id of the property set.  What it writes
    yields the bytes of the payload it was given; without ShouldCompress it
    is that payload itself, and with it a gzip streamer reset onto a
    ReadCloser, which is the payload itself when that is one and a NopCloser
    around it otherwise. *)
Theorem streamImpl_writes_once (env : Env) (db_ table_ : string) (c : Conn)
  (ctx : Context) (payload : Reader) (props : properties.All) (s : State) :
  exists written,
    trace (snd (streamImpl env db_ table_ c ctx payload props s))
    = trace s
      ++ [EvWrite c db_ table_ written
            (properties.Format
               (properties.Additional_ (properties.Ingestion_ props)))
            (properties.IngestionMappingRef
               (properties.Additional_ (properties.Ingestion_ props)))
            (properties.ClientRequestId (properties.Streaming_ props))]
    /\ source_bytes written = source_bytes payload
    /\ compressed written
       = (properties.ShouldCompress (properties.Streaming_ props)
          || compressed payload)%bool
    /\ (properties.ShouldCompress (properties.Streaming_ props) = false ->
        written = payload)
    /\ (properties.ShouldCompress (properties.Streaming_ props) = true ->
        exists closer,
          written = gzip_Reset closer
          /\ is_ReadCloser closer = true
          /\ (is_ReadCloser payload = true -> closer = payload)
          /\ (is_ReadCloser payload = false ->
              closer = ioutil_NopCloser payload)).
Proof.
  exists (outgoing props payload). rewrite streamImpl_run. cbn [snd log trace].
  split; [reflexivity|]. unfold outgoing.
  destruct (properties.ShouldCompress (properties.Streaming_ props)).
  - split; [now destruct (is_ReadCloser payload)|]. split; [reflexivity|].
    split; [discriminate|]. intros _.
    destruct (is_ReadCloser payload) eqn:E.
    + exists payload. repeat split; auto; discriminate.
    + exists (ioutil_NopCloser payload). repeat split; auto; discriminate.
  - repeat split; auto. discriminate.
Qed.

Lemma streamImpl_writes_once_witness :
  exists written,
    trace (snd (streamImpl sample_env "db" "events" conn_a background
                  (bytes_NewReader [Byte.x41])
                  (properties.set_ShouldCompress properties.zero_All true)
                  init_State))
    = [EvWrite conn_a "db" "events" written properties.DFUnknown "" ""]
    /\ written = gzip_Reset (ioutil_NopCloser (bytes_NewReader [Byte.x41])).
Proof.
  destruct (streamImpl_writes_once sample_env "db" "events" conn_a background
              (bytes_NewReader [Byte.x41])
              (properties.set_ShouldCompress properties.zero_All true)
              init_State) as (written & T & _ & _ & _ & H).
  destruct (H eq_refl) as (closer & -> & _ & _ & Hc).
  rewrite (Hc eq_refl) in T. eexists. split; [exact T|reflexivity].
Defined.

Lemma write_conns_app (a b : list Event) :
  write_conns (a ++ b) = write_conns a ++ write_conns b.
Proof.
  induction a as [|e a IH]; [reflexivity|].
  destruct e; cbn [app write_conns]; rewrite IH; reflexivity.
Qed.

Lemma runs_no_write (n k : nat) (f b r q st : bool) :
  writes (runs n k f b r q st) = []
  /\ write_conns (runs n k f b r q st) = []
  /\ conn_news (runs n k f b r q st) = 0.
Proof.
  unfold runs. generalize (seq n k). intros l.
  induction l as [|j l (IH1 & IH2 & IH3)]; cbn; auto.
Qed.

(** The option loop writes nothing and makes no connection. *)
Lemma run_options_no_write (options : list FileOption) (n : nat)
  (props : properties.All) (f b r q st : bool) (s : State) :
  let s' := snd (run_options options n props f b r q st s) in
  writes (trace s') = writes (trace s)
  /\ write_conns (trace s') = write_conns (trace s)
  /\ conn_news (trace s') = conn_news (trace s).
Proof.
  cbv zeta.
  destruct (run_options_trace options n props f b r q st s)
    as (k & _ & [T _ _ _] & _).
  destruct (runs_no_write n k f b r q st) as (W1 & W2 & W3).
  rewrite T, writes_app, write_conns_app, conn_news_app, W1, W2, W3.
  rewrite !app_nil_r. auto.
Qed.

Lemma outgoing_bytes (props : properties.All) (payload : Reader) :
  source_bytes (outgoing props payload) = source_bytes payload.
Proof.
  unfold outgoing.
  destruct (properties.ShouldCompress (properties.Streaming_ props));
    [|reflexivity].
  now destruct (is_ReadCloser payload).
Qed.

(** X10: streaming FromReader always compresses.  When every option
    succeeds it makes one write, on the connection of the orchestrator, of a
    gzip streamer over the reader (made a ReadCloser if it is none), and the
    property set of the Result has ShouldCompress on, whatever the options
    did to that field; when an option fails it returns that error and writes
    nothing. *)
Theorem streaming_FromReader_always_compresses (env : Env)
  (j : StreamingIngestion) (ctx : Context) (reader : Reader)
  (options : list FileOption) (s : State) :
  let o := run_options options 0 (StreamingIngestion_newProp j) false false
             true false true s in
  let r := StreamingIngestion_FromReader env j ctx reader options s in
  (forall err, snd (fst o) = Some err ->
     fst r = (None, Some err) /\ writes (trace (snd r)) = writes (trace s))
  /\ (snd (fst o) = None ->
      writes (trace (snd r))
      = writes (trace s)
        ++ [gzip_Reset (if is_ReadCloser reader then reader
                        else ioutil_NopCloser reader)]
      /\ write_conns (trace (snd r))
         = write_conns (trace s) ++ [s_streamConn j]
      /\ forall res,
           fst (fst r) = Some res ->
           props_snapshot res
           = properties.set_ShouldCompress (fst (fst o)) true).
Proof.
  cbv zeta. unfold StreamingIngestion_FromReader. rewrite bind_run.
  destruct (run_options_no_write options 0 (StreamingIngestion_newProp j)
              false false true false true s) as (W1 & W2 & _).
  destruct (run_options options 0 (StreamingIngestion_newProp j) false false
              true false true s) as [[props oe] s2]. cbn [fst snd] in *.
  split.
  - intros err ->. cbn [ret fst snd]. auto.
  - intros ->. rewrite streamImpl_run. cbn [fst snd log trace].
    rewrite writes_app, write_conns_app, W1, W2. cbn [writes write_conns].
    split; [reflexivity|]. split; [reflexivity|].
    intros res.
    destruct (conn_Write env (s_streamConn j) ctx (s_db j) (s_table j) _ _ _ _);
      cbn [fst]; [discriminate|]. now intros [= <-].
Qed.

Lemma streaming_FromReader_always_compresses_witness :
  writes (trace (snd (StreamingIngestion_FromReader sample_env
                        sample_Streaming background
                        (caller_Reader [Byte.x41] true)
                        [FileFormat properties.CSV] init_State)))
  = [gzip_Reset (caller_Reader [Byte.x41] true)]
  /\ writes (trace (snd (StreamingIngestion_FromReader sample_env
                           sample_Streaming background
                           (caller_Reader [Byte.x41] true)
                           [FileFormat properties.CSV; refusing]
                           init_State))) = [].
Proof.
  destruct (streaming_FromReader_always_compresses sample_env sample_Streaming
              background (caller_Reader [Byte.x41] true)
              [FileFormat properties.CSV] init_State) as [_ H].
  destruct (H eq_refl) as [H1 _].
  destruct (streaming_FromReader_always_compresses sample_env sample_Streaming
              background (caller_Reader [Byte.x41] true)
              [FileFormat properties.CSV; refusing] init_State) as [G _].
  destruct (G _ eq_refl) as [_ G1].
  split; [exact H1|exact G1].
Defined.

(** X11: streaming FromFile on a local path opens the file only after every
    option has succeeded and writes only after the file is open.  An option
    that fails ends the call with its error before compression discovery,
    Open or any write; an error of Open is returned as it is and nothing is
    written; when the file opens, the call makes one write, on the connection
    of the orchestrator with its database and table, of a payload that yields
    the bytes of the file, tagged with the format, mapping reference and
    request id the options left. *)
Theorem streaming_FromFile_opens_then_writes (env : Env)
  (j : StreamingIngestion) (ctx : Context) (fPath : string)
  (options : list FileOption) (s : State) :
  filesystem_IsLocalPath env fPath = (true, None) ->
  let o := run_options options 0 (StreamingIngestion_newProp j) true false
             false false true (snd (IsLocalPath env fPath s)) in
  let r := StreamingIngestion_FromFile env j ctx fPath options s in
  (forall err, snd (fst o) = Some err -> r = ((None, Some err), snd o))
  /\ (snd (fst o) = None ->
      (forall err, os_Open env fPath = inl err ->
         fst r = (None, Some err)
         /\ trace (snd r)
            = trace (snd o) ++ [EvCompressionDiscovery fPath]
                ++ [EvOpen fPath])
      /\ (forall content, os_Open env fPath = inr content ->
            exists written,
              trace (snd r)
              = trace (snd o) ++ [EvCompressionDiscovery fPath]
                  ++ [EvOpen fPath]
                  ++ [EvWrite (s_streamConn j) (s_db j) (s_table j) written
                        (properties.Format
                           (properties.Additional_
                              (properties.Ingestion_ (fst (fst o)))))
                        (properties.IngestionMappingRef
                           (properties.Additional_
                              (properties.Ingestion_ (fst (fst o)))))
                        (properties.ClientRequestId
                           (properties.Streaming_ (fst (fst o))))]
              /\ source_bytes written = content)).
Proof.
  intros Hl. cbv zeta. unfold StreamingIngestion_FromFile.
  rewrite bind_run, IsLocalPath_run. cbn [fst snd]. rewrite Hl.
  cbn [negb]. rewrite bind_run.
  destruct (run_options options 0 (StreamingIngestion_newProp j) true false
              false false true (snd (log (EvIsLocalPath fPath) s)))
    as [[props oe] s2]. cbn [fst snd].
  split.
  - now intros err ->.
  - intros ->. rewrite bind_run, CompressionDiscovery_run. cbn [fst snd].
    rewrite bind_run, Open_run. cbn [fst snd]. split.
    + intros err ->. cbn [ret fst snd log trace]. split; [reflexivity|].
      now rewrite <- app_assoc.
    + intros content ->. rewrite streamImpl_run. cbn [snd log trace].
      exists (outgoing
                (if detected (filesystem_CompressionDiscovery env fPath)
                 then properties.set_ShouldCompress props true else props)
                (os_File fPath content)).
      split; [|apply outgoing_bytes]. rewrite <- !app_assoc.
      now destruct (detected (filesystem_CompressionDiscovery env fPath)).
Qed.

Lemma streaming_FromFile_opens_then_writes_witness :
  StreamingIngestion_FromFile sample_env sample_Streaming background
    "data.csv" [refusing] init_State
  = ((None, Some (errors_ES OpFileIngest KClientArgs "option not supported")),
     {| manager := None; managers_made := 0; conns_made := 0;
        uuids_made := 0;
        trace := [EvIsLocalPath "data.csv";
                  EvRun 0 true false false false true] |}).
Proof.
  destruct (streaming_FromFile_opens_then_writes sample_env sample_Streaming
              background "data.csv" [refusing] init_State eq_refl) as [H _].
  exact (H _ eq_refl).
Defined.

(** ** Stream, call after call *)

Section StreamCalls.

Variable env : Env.

Lemma Stream_each_cons (i : Ingestion) (ctx : Context)
  (payload : list Byte.byte) (rest : list (list Byte.byte))
  (format : properties.DataFormat) (mappingName : string) (s : State) :
  let r := Stream env i ctx payload format mappingName s in
  let rs := Stream_each env (fst (fst r)) ctx rest format mappingName (snd r) in
  Stream_each env i ctx (payload :: rest) format mappingName s
  = ((fst (fst rs), snd (fst r) :: snd (fst rs)), snd rs).
Proof.
  cbv zeta. cbn [Stream_each]. rewrite !bind_run. reflexivity.
Qed.

(** One call on an orchestrator that holds a connection. *)
Lemma Stream_hit (i : Ingestion) (ctx : Context) (payload : list Byte.byte)
  (format : properties.DataFormat) (mappingName : string) (s : State)
  (c : Conn) :
  streamConn i = Some c ->
  fst (fst (Stream env i ctx payload format mappingName s)) = i
  /\ trace (snd (Stream env i ctx payload format mappingName s))
     = trace s ++ [EvLock connMu] ++ [EvUnlock connMu]
         ++ [EvWrite c (db i) (table i) (bytes_NewReader payload) format
               mappingName ""]
  /\ conns_made (snd (Stream env i ctx payload format mappingName s))
     = conns_made s.
Proof.
  intros Hc.
  assert (Hg : fst (getStreamConn env i s) = (i, (Some c, None)))
    by now rewrite (getStreamConn_hit env i s c Hc).
  rewrite (Stream_with_conn env i i ctx payload format mappingName s c Hg).
  rewrite (getStreamConn_hit env i s c Hc). cbn [fst snd log trace conns_made].
  repeat split. now rewrite <- !app_assoc.
Qed.

Lemma Stream_each_hit (i : Ingestion) (ctx : Context)
  (format : properties.DataFormat) (mappingName : string) (c : Conn) :
  streamConn i = Some c ->
  forall payloads s,
    let r := Stream_each env i ctx payloads format mappingName s in
    fst (fst r) = i
    /\ writes (trace (snd r))
       = writes (trace s) ++ map bytes_NewReader payloads
    /\ write_conns (trace (snd r))
       = write_conns (trace s) ++ map (fun _ => c) payloads
    /\ conn_news (trace (snd r)) = conn_news (trace s)
    /\ conns_made (snd r) = conns_made s.
Proof.
  intros Hc. induction payloads as [|payload rest IH]; intros s; cbv zeta.
  - cbn. rewrite !app_nil_r. repeat split.
  - rewrite Stream_each_cons. cbv zeta. cbn [fst snd].
    destruct (Stream_hit i ctx payload format mappingName s c Hc)
      as (Hi & T & N).
    rewrite Hi.
    destruct (IH (snd (Stream env i ctx payload format mappingName s)))
      as (I1 & I2 & I3 & I4 & I5).
    cbv zeta in I1, I2, I3, I4, I5.
    rewrite I1, I2, I3, I4, I5, N, T.
    rewrite !writes_app, !write_conns_app, !conn_news_app. cbn.
    rewrite ?app_nil_r, <- ?app_assoc, ?Nat.add_0_r. cbn. repeat split.
Qed.

End StreamCalls.

(** X13: however many payloads are streamed through one orchestrator, it
    makes at most one connection.  When conn.New succeeds, a run of Stream
    calls writes the payloads, in order and uncompressed, all on one
    connection: the one the orchestrator held, or else the one the first call
    made and every later call found stored; conn.New is called once in the
    second case and never in the first. *)
Theorem Stream_calls_share_one_connection (env : Env) (i : Ingestion)
  (ctx : Context) (payloads : list (list Byte.byte))
  (format : properties.DataFormat) (mappingName : string) (s : State) :
  conn_New_err env (Endpoint (client i)) (Auth (client i)) = None ->
  let c :=
    match streamConn i with
    | Some c => c
    | None => {| conn_id := conns_made s;
                 conn_endpoint := Endpoint (client i);
                 conn_auth := Auth (client i) |}
    end in
  let made :=
    match streamConn i, payloads with
    | None, _ :: _ => 1
    | _, _ => 0
    end in
  let r := Stream_each env i ctx payloads format mappingName s in
  writes (trace (snd r)) = writes (trace s) ++ map bytes_NewReader payloads
  /\ write_conns (trace (snd r))
     = write_conns (trace s) ++ map (fun _ => c) payloads
  /\ conn_news (trace (snd r)) = conn_news (trace s) + made
  /\ conns_made (snd r) = conns_made s + made
  /\ (payloads <> [] -> streamConn (fst (fst r)) = Some c).
Proof.
  intros Hn. cbv zeta. destruct (streamConn i) as [c|] eqn:Hc.
  - destruct (Stream_each_hit env i ctx format mappingName c Hc payloads s)
      as (I1 & I2 & I3 & I4 & I5). cbv zeta in I1, I2, I3, I4, I5.
    rewrite I1, I2, I3, I4, I5, !Nat.add_0_r. repeat split; auto.
  - destruct payloads as [|payload rest].
    + cbn. rewrite !app_nil_r, !Nat.add_0_r. repeat split. congruence.
    + rewrite Stream_each_cons. cbv zeta. cbn [fst snd].
      set (sc := {| conn_id := conns_made s;
                    conn_endpoint := Endpoint (client i);
                    conn_auth := Auth (client i) |}).
      assert (Hg : fst (getStreamConn env i s)
                   = (set_streamConn i (Some sc), (Some sc, None)))
        by now rewrite (getStreamConn_miss env i s Hc Hn).
      rewrite (Stream_with_conn env i _ ctx payload format mappingName s sc
                 Hg).
      rewrite (getStreamConn_miss env i s Hc Hn). fold sc.
      cbn [fst snd].
      match goal with
      | |- context [Stream_each env ?i1 ctx rest format mappingName ?s1] =>
          destruct (Stream_each_hit env i1 ctx format mappingName sc eq_refl
                      rest s1) as (I1 & I2 & I3 & I4 & I5)
      end.
      cbv zeta in I1, I2, I3, I4, I5. rewrite I1, I2, I3, I4, I5.
      cbn [log snd trace conns_made].
      rewrite !writes_app, !write_conns_app, !conn_news_app. cbn.
      rewrite ?app_nil_r, <- ?app_assoc. cbn.
      repeat split; try lia.
Qed.

Lemma Stream_calls_share_one_connection_witness :
  write_conns
    (trace (snd (Stream_each sample_env sample_Ingestion background
                   [[Byte.x41]; []; [Byte.x42]] properties.CSV ""
                   init_State)))
  = [conn_a; conn_a; conn_a]
  /\ conn_news
       (trace (snd (Stream_each sample_env sample_Ingestion background
                      [[Byte.x41]; []; [Byte.x42]] properties.CSV ""
                      init_State))) = 1.
Proof.
  destruct (Stream_calls_share_one_connection sample_env sample_Ingestion
              background [[Byte.x41]; []; [Byte.x42]] properties.CSV ""
              init_State eq_refl) as (_ & H2 & H3 & _).
  split; [exact H2|exact H3].
Defined.

(** X14: while conn.New fails, every Stream call returns the error of
    conn.New as it is (not wrapped like an error of the write), writes
    nothing and leaves the orchestrator without a connection, so that each
    call tries conn.New again. *)
Theorem Stream_retries_the_connection (env : Env) (i : Ingestion)
  (ctx : Context) (payloads : list (list Byte.byte))
  (format : properties.DataFormat) (mappingName : string) (s : State)
  (err : error) :
  streamConn i = None ->
  conn_New_err env (Endpoint (client i)) (Auth (client i)) = Some err ->
  let r := Stream_each env i ctx payloads format mappingName s in
  fst r = (i, map (fun _ => Some err) payloads)
  /\ writes (trace (snd r)) = writes (trace s)
  /\ conn_news (trace (snd r)) = conn_news (trace s) + length payloads
  /\ conns_made (snd r) = conns_made s.
Proof.
  intros Hc Hn. cbv zeta. revert s.
  induction payloads as [|payload rest IH]; intros s.
  - cbn. rewrite Nat.add_0_r. repeat split.
  - rewrite Stream_each_cons. cbv zeta.
    assert (Hg : fst (getStreamConn env i s) = (i, (None, Some err)))
      by now rewrite (getStreamConn_failure env i s err Hc Hn).
    rewrite (Stream_without_conn env i ctx payload format mappingName s err
               Hg).
    cbn [fst snd].
    destruct (IH (snd (getStreamConn env i s))) as (I1 & I2 & I3 & I4).
    rewrite I1, I2, I3, I4. cbn [fst snd map length].
    rewrite (getStreamConn_failure env i s err Hc Hn).
    cbn [snd trace conns_made].
    rewrite !writes_app, !conn_news_app. cbn.
    rewrite ?app_nil_r. repeat split; lia.
Qed.

Lemma Stream_retries_the_connection_witness :
  fst (Stream_each no_conn_env sample_Ingestion background
         [[Byte.x41]; [Byte.x42]] properties.CSV "" init_State)
  = (sample_Ingestion, [Some no_conn; Some no_conn])
  /\ conn_news
       (trace (snd (Stream_each no_conn_env sample_Ingestion background
                      [[Byte.x41]; [Byte.x42]] properties.CSV ""
                      init_State))) = 2.
Proof.
  destruct (Stream_retries_the_connection no_conn_env sample_Ingestion
              background [[Byte.x41]; [Byte.x42]] properties.CSV ""
              init_State no_conn eq_refl eq_refl) as (H1 & _ & H3 & _).
  split; [exact H1|exact H3].
Defined.

(** ** What the reporting block leaves alone *)

(** X15: after the options, prepForIngestion changes nothing of the property
    set but Source.ID and TableEntryRef: database and table names,
    RetainBlobOnSuccess, report level and method, format, mapping reference,
    auth context and the streaming part are as the options left them, and
    TableEntryRef too unless the report method names a status table. *)
Theorem prepForIngestion_touches_only_reporting_fields (env : Env)
  (i : Ingestion) (ctx : Context) (options : list FileOption)
  (f b r : bool) (s s2 : State) (auth : string)
  (props props' : properties.All) (result : Result) :
  mgr_AuthContext env (mgr i) ctx = (auth, None) ->
  run_options options 0 (newProp i auth) f b r true false
    (snd (AuthContext env (mgr i) ctx s)) = ((props, None), s2) ->
  fst (prepForIngestion env i ctx options f b r s)
  = (Some result, props', None) ->
  properties.Streaming_ props' = properties.Streaming_ props
  /\ properties.set_TableEntryRef props'
       (properties.TableEntryRef (properties.Ingestion_ props))
     = properties.set_ID props (properties.ID (properties.Source props'))
  /\ (properties.ReportMethod (properties.Ingestion_ props)
      = properties.ReportStatusToQueue ->
      properties.Ingestion_ props' = properties.Ingestion_ props).
Proof.
  intros Ha Ho. unfold prepForIngestion. rewrite bind_run.
  replace (fst (AuthContext env (mgr i) ctx s)) with (auth, @None error)
    by (cbn; now rewrite Ha).
  cbn iota. rewrite bind_run, Ho. cbn [fst snd].
  destruct props as [ing str src]. destruct ing as [d t rb lv me te ad].
  destruct src as [id].
  destruct lv; cbn [negb properties.level_is_None properties.ReportLevel
                    properties.Ingestion_].
  2: { cbn [ret fst]. intros [= <- <-]. repeat split. }
  all: rewrite bind_run.
  all: match goal with
       | |- context [assign_ID ?e ?p ?st] =>
           destruct (assign_ID_facts e p st) as (_ & _ & V & _)
       end.
  all: rewrite V; clear V.
  all: cbn [properties.ID properties.Source].
  all: destruct (uuid.eqb id uuid.Nil).
  all: destruct me;
         cbn [properties.ReportMethod properties.Ingestion_
              properties.set_ID].
  all: try (cbn [ret fst]; intros [= <- <-]; repeat split).
  all: rewrite bind_run.
  all: match goal with
       | |- context [Resources_ ?e ?m ?st] =>
           change (Resources_ e m st)
             with (mgr_Resources e m, snd (log (EvResources m) st))
       end.
  all: cbn [fst snd].
  all: destruct (mgr_Resources env (mgr i)) as [rs [err|]];
         [cbn [ret fst]; discriminate|].
  all: destruct (Tables rs) as [|t0 ts]; [cbn [ret fst]; discriminate|].
  all: cbn [ret fst]; intros [= <- <-]; repeat split; discriminate.
Qed.

Lemma prepForIngestion_touches_only_reporting_fields_witness :
  exists result props',
    fst (prepForIngestion sample_env sample_Ingestion background
           [FileFormat properties.CSV; ReportResultToTable] true false false
           init_State) = (Some result, props', None)
    /\ properties.set_TableEntryRef props' properties.zero_TableEntryRef
       = properties.set_ID
           (set_Report
              (set_Format (newProp sample_Ingestion "token") properties.CSV)
              properties.FailureAndSuccess properties.ReportStatusToTable)
           (uuid.New 0).
Proof.
  eexists. eexists. split; [reflexivity|].
  exact (proj1 (proj2
    (prepForIngestion_touches_only_reporting_fields sample_env
       sample_Ingestion background
       [FileFormat properties.CSV; ReportResultToTable] true false false
       init_State _ "token" _ _ _ eq_refl eq_refl eq_refl))).
Defined.

(** ** Concurrent callers of getManager that start once a Manager is stored *)

(** X16: starting from a state in which a Manager is stored, managerMu is
    free and no getManager call is in progress (every caller has yet to make
    its atomic load), any number of concurrent callers of getManager, with
    any clients and under any interleaving, return that same Manager; none
    of them takes the mutex or constructs a Manager, and the stored Manager
    stays.  Callers that were already past their load when the Manager was
    stored are not covered. *)
Theorem getManager_after_the_first (env : Env) (cl : nat -> Client)
  (m : Manager) (n : nat) (sched : list nat) :
  let final :=
    run_schedule ManagerThreads.Shared ManagerThreads.pc
      (ManagerThreads.step env cl) sched
      ({| ManagerThreads.held := false; ManagerThreads.stored := Some m;
          ManagerThreads.made := n |}, fun _ => ManagerThreads.AtLoad) in
  ManagerThreads.held (fst final) = false
  /\ ManagerThreads.stored (fst final) = Some m
  /\ ManagerThreads.made (fst final) = n
  /\ forall t,
       snd final t = ManagerThreads.AtLoad
       \/ snd final t = ManagerThreads.Returned (Some m, None).
Proof.
  cbv zeta.
  apply (run_schedule_invariant ManagerThreads.Shared ManagerThreads.pc
           (ManagerThreads.step env cl)
           (fun st =>
              ManagerThreads.held (fst st) = false
              /\ ManagerThreads.stored (fst st) = Some m
              /\ ManagerThreads.made (fst st) = n
              /\ forall t,
                   snd st t = ManagerThreads.AtLoad
                   \/ snd st t = ManagerThreads.Returned (Some m, None))).
  - intros t [sh pool] (Hh & Hs & Hm & Hp). unfold pool_step.
    cbn [fst snd] in *.
    destruct (Hp t) as [Ht|Ht]; rewrite Ht; cbn [ManagerThreads.step].
    + rewrite Hs. cbn [fst snd]. repeat split; auto.
      intros u. unfold upd. destruct (Nat.eqb u t); auto.
    + cbn [fst snd]. auto.
  - cbn. auto.
Qed.
